(** * pl-birthday-match: the matcher and the report of [birthday_match.py]

    The script fetches the Fantasy Premier League roster and fixtures and a
    Wikidata birthday index, pairs every player with the fixtures of the
    player's team that fall on the player's birthday, sorts the pairs by
    date and writes them to [index.html].

    The network answers and the clock are the inputs of the model (a
    [world]); the output is what the script leaves behind: the written
    document, or the exception that ended the run.  Console messages are
    not modelled. *)

From Stdlib Require Import ZArith String Ascii List Sorted Permutation Lia.
From Stdlib Require Import DecimalString.
From stdpp Require Import base option list gmap strings sorting.

Open Scope string_scope.
Open Scope Z_scope.

(* ===================================================================== *)
(** * Dates *)
(* ===================================================================== *)

(** [datetime.date]: the three integer fields. *)
Record date : Type := mkdate { year : Z; month : Z; day : Z }.

#[global] Instance date_eq_dec : EqDecision date.
Proof. solve_decision. Defined.

#[global] Instance date_inhabited : Inhabited date := populate (mkdate 1 1 1).

(** [d1 < d2] on dates: comparison of (year, month, day). *)
Definition date_lt (d1 d2 : date) : bool :=
  (year d1 <? year d2)
  || ((year d1 =? year d2)
      && ((month d1 <? month d2)
          || ((month d1 =? month d2) && (day d1 <? day d2)))).

(* ===================================================================== *)
(** * numpy's indirect introsort

    [DataFrame.sort_values(by)] with one key and the default
    [kind='quicksort'] sorts the key column with [ndarray.argsort] and
    reorders the rows with the resulting indexer.  For a column of Python
    objects the argsort is numpy's comparison-based [npy_aquicksort]:
    median-of-three quicksort over the index array [tosort], insertion sort
    on ranges of at most 17 entries, heapsort for a range popped from the
    stack once the depth budget is spent.  [less] is the comparison of the
    keys that two index entries point to. *)
(* ===================================================================== *)

Section Aquicksort.
Context {A : Type} `{Inhabited A}.
Variable less : A -> A -> bool.

(** [INTP_SWAP(a[i], a[j])] *)
Definition swap (a : list A) (i j : nat) : list A :=
  <[j := a !!! i]> (<[i := a !!! j]> a).

Definition SMALL_QUICKSORT : nat := 16.

(** [npy_get_msb]: the position of the highest set bit. *)
Definition npy_get_msb (num : nat) : Z := Z.log2 (Z.of_nat num).

(** Median of three: afterwards [a[pl] <= a[pm] <= a[pr]]. *)
Definition median3 (a : list A) (pl pm pr : nat) : list A :=
  let a := if less (a !!! pm) (a !!! pl) then swap a pm pl else a in
  let a := if less (a !!! pr) (a !!! pm) then swap a pr pm else a in
  if less (a !!! pm) (a !!! pl) then swap a pm pl else a.

(** [do { ++pi; } while (less(a[pi], vp))], entered after the increment. *)
Fixpoint scan_up (fuel : nat) (a : list A) (vp : A) (pi : nat) : nat :=
  match fuel with
  | O => pi
  | S fuel => if less (a !!! pi) vp then scan_up fuel a vp (S pi) else pi
  end.

(** [do { --pj; } while (less(vp, a[pj]))], entered after the decrement. *)
Fixpoint scan_down (fuel : nat) (a : list A) (vp : A) (pj : nat) : nat :=
  match fuel with
  | O => pj
  | S fuel => if less vp (a !!! pj) then scan_down fuel a vp (pj - 1) else pj
  end.

(** The [for (;;)] loop of the partition; returns the array and [pi]. *)
Fixpoint partition_loop (fuel : nat) (a : list A) (vp : A) (pi pj : nat)
  : list A * nat :=
  match fuel with
  | O => (a, pi)
  | S fuel =>
      let pi := scan_up (length a) a vp (S pi) in
      let pj := scan_down (length a) a vp (pj - 1) in
      if (pj <=? pi)%nat then (a, pi)
      else partition_loop fuel (swap a pi pj) vp pi pj
  end.

(** One pass of the body of [while ((pr - pl) > SMALL_QUICKSORT)] up to
    the final swap of the pivot into place. *)
Definition partition_range (a : list A) (pl pr : nat) : list A * nat :=
  let pm := (pl + Nat.shiftr (pr - pl) 1)%nat in
  let a := median3 a pl pm pr in
  let vp := a !!! pm in
  let a := swap a pm (pr - 1) in
  let '(a, pi) := partition_loop (length a) a vp pl (pr - 1) in
  (swap a pi (pr - 1), pi).

(** The inner [while] of the insertion sort: shift larger entries up. *)
Fixpoint insertion_shift (fuel : nat) (a : list A) (vp : A) (pl pj : nat)
  : list A * nat :=
  match fuel with
  | O => (a, pj)
  | S fuel =>
      if (pl <? pj)%nat && less vp (a !!! (pj - 1)%nat)
      then insertion_shift fuel (<[pj := a !!! (pj - 1)%nat]> a) vp pl (pj - 1)
      else (a, pj)
  end.

Definition insertion_step (pl : nat) (a : list A) (pi : nat) : list A :=
  let vi := a !!! pi in
  let '(a, pj) := insertion_shift pi a vi pl pi in
  <[pj := vi]> a.

(** [for (pi = pl + 1; pi <= pr; ++pi)] *)
Definition insertion_sort (a : list A) (pl pr : nat) : list A :=
  fold_left (insertion_step pl) (seq (S pl) (pr - pl)) a.

(** Heapsort works on [a = tosort - 1], entries [a[1] .. a[n]]; here the
    range starts at [pl], so [a[k]] is position [pl + k - 1]. *)
Definition hget (a : list A) (pl k : nat) : A := a !!! (pl + k - 1)%nat.
Definition hset (a : list A) (pl k : nat) (x : A) : list A :=
  <[(pl + k - 1)%nat := x]> a.

(** [for (i, j = 2 i; j <= n;) ...; a[i] = tmp] *)
Fixpoint sift_down (fuel : nat) (a : list A) (pl : nat) (tmp : A)
    (n i j : nat) : list A :=
  match fuel with
  | O => hset a pl i tmp
  | S fuel =>
      if (j <=? n)%nat then
        let j := if (j <? n)%nat && less (hget a pl j) (hget a pl (j + 1))
                 then (j + 1)%nat else j in
        if less tmp (hget a pl j)
        then sift_down fuel (hset a pl i (hget a pl j)) pl tmp n j (j + j)
        else hset a pl i tmp
      else hset a pl i tmp
  end.

(** [for (l = n >> 1; l > 0; --l)] *)
Fixpoint heapify (l : nat) (a : list A) (pl n : nat) : list A :=
  match l with
  | O => a
  | S l' =>
      let a := sift_down n a pl (hget a pl l) n l (l + l) in
      heapify l' a pl n
  end.

(** [for (; n > 1;)]: move the maximum behind the heap, restore the heap. *)
Fixpoint heap_extract (fuel : nat) (a : list A) (pl n : nat) : list A :=
  match fuel with
  | O => a
  | S fuel =>
      if (1 <? n)%nat then
        let tmp := hget a pl n in
        let a := hset a pl n (hget a pl 1) in
        let n := (n - 1)%nat in
        let a := sift_down n a pl tmp n 1 2 in
        heap_extract fuel a pl n
      else a
  end.

Definition aheapsort (a : list A) (pl n : nat) : list A :=
  heap_extract n (heapify (Nat.shiftr n 1) a pl n) pl n.

(** The outer [while (1)] with its explicit stack, as recursion: the
    larger part is pushed with the decremented depth and the smaller one
    is continued; a popped range is heap-sorted when its depth budget is
    negative.  Ranges on the stack are disjoint and are popped most
    recent first, which is the order of the recursive calls. *)
Fixpoint aquicksort_range (fuel : nat) (a : list A) (pl pr : nat)
    (cdepth : Z) : list A :=
  match fuel with
  | O => a
  | S fuel =>
      let popped (a : list A) (pl pr : nat) (cdepth : Z) : list A :=
        if cdepth <? 0 then aheapsort a pl (pr - pl + 1)
        else aquicksort_range fuel a pl pr cdepth in
      if (SMALL_QUICKSORT <? pr - pl)%nat then
        let '(a, pi) := partition_range a pl pr in
        let cdepth := cdepth - 1 in
        if (pi - pl <? pr - pi)%nat then
          let a := aquicksort_range fuel a pl (pi - 1) cdepth in
          popped a (pi + 1)%nat pr cdepth
        else
          let a := aquicksort_range fuel a (pi + 1) pr cdepth in
          popped a pl (pi - 1)%nat cdepth
      else insertion_sort a pl pr
  end.

Definition aquicksort (tosort : list A) : list A :=
  let num := length tosort in
  aquicksort_range (S num) tosort 0 (num - 1) (npy_get_msb num * 2).

(** ** Vocabulary of the correctness proof *)

(** [x <= y] for the keys: [y] is not below [x]. *)
Definition le_of (x y : A) : Prop := less y x = false.

(** [rearr pl pr a b]: [b] is [a] after swaps inside [pl .. pr]. *)
Inductive rearr (pl pr : nat) : list A -> list A -> Prop :=
| rearr_refl a : rearr pl pr a a
| rearr_swap a b i j :
    rearr pl pr a b -> (pl <= i <= pr)%nat -> (pl <= j <= pr)%nat ->
    (pr < length b)%nat ->
    rearr pl pr a (swap b i j).

(** No entry of [pl .. pr] is below an earlier one. *)
Definition sorted_range (a : list A) (pl pr : nat) : Prop :=
  forall i j : nat,
    (pl <= i)%nat -> (i <= j)%nat -> (j <= pr)%nat ->
    le_of (a !!! i) (a !!! j).

(** The entry at [pi] splits [pl .. pr]: nothing before it is above it,
    nothing after it is below it. *)
Definition pivot_at (a : list A) (pl pi pr : nat) : Prop :=
  (forall k : nat, (pl <= k < pi)%nat -> le_of (a !!! k) (a !!! pi))
  /\ (forall k : nat, (pi < k <= pr)%nat -> le_of (a !!! pi) (a !!! k)).

(** Node [k] of the heap is not below its children [2k] and [2k+1]. *)
Definition dominates (a : list A) (pl n k : nat) : Prop :=
  forall c : nat,
    c = (k + k)%nat \/ c = S (k + k) -> (c <= n)%nat ->
    le_of (hget a pl c) (hget a pl k).

(** Every node from [l] on dominates its children. *)
Definition heap_from (a : list A) (pl l n : nat) : Prop :=
  forall k : nat, (l <= k)%nat -> dominates a pl n k.

End Aquicksort.

(* ===================================================================== *)
(** * Strings *)
(* ===================================================================== *)

(** [str.lower] and [str.strip] belong to Python's Unicode strings; the
    program only composes them, so they are an interface here. *)
Class StrMethods : Type := {
  lower : string -> string;
  strip : string -> string
}.

(** The double quote character, and a text between double quotes. *)
Definition dq : string := String (ascii_of_nat 34) EmptyString.
Definition quoted (s : string) : string := dq +:+ s +:+ dq.

(** [str(n)] for an integer. *)
Definition str_of_Z (n : Z) : string := NilZero.string_of_int (Z.to_int n).

(** [s.find(sub) != -1] *)
Fixpoint contains (sub s : string) : bool :=
  String.prefix sub s
  || match s with
     | EmptyString => false
     | String _ s' => contains sub s'
     end.

(** The instance for ASCII text: letters [A-Z] are lowered, the white space
    of [str.isspace] below 128 is stripped from both ends. *)
Definition ascii_lower_char (c : ascii) : ascii :=
  let n := nat_of_ascii c in
  if ((65 <=? n) && (n <=? 90))%nat then ascii_of_nat (n + 32) else c.

Fixpoint ascii_lower (s : string) : string :=
  match s with
  | EmptyString => EmptyString
  | String c s' => String (ascii_lower_char c) (ascii_lower s')
  end.

Definition is_space (c : ascii) : bool :=
  let n := nat_of_ascii c in
  (((9 <=? n) && (n <=? 13)) || ((28 <=? n) && (n <=? 32)))%nat.

Fixpoint lstrip (s : string) : string :=
  match s with
  | EmptyString => EmptyString
  | String c s' => if is_space c then lstrip s' else s
  end.

Fixpoint rstrip (s : string) : string :=
  match s with
  | EmptyString => EmptyString
  | String c s' =>
      match rstrip s' with
      | EmptyString => if is_space c then EmptyString else String c EmptyString
      | r => String c r
      end
  end.

Definition ascii_strip (s : string) : string := rstrip (lstrip s).

Definition ascii_str : StrMethods := {| lower := ascii_lower; strip := ascii_strip |}.

(* ===================================================================== *)
(** * The answers of the three services and the clock *)
(* ===================================================================== *)

(** [bootstrap-static]: [teams] and [elements]. *)
Record team_json : Type := { id : Z; name : string }.

Record element_json : Type := {
  first_name : string;
  second_name : string;
  web_name : string;
  team : Z
}.

(** [fixtures]: [kickoff_time] is an ISO 8601 time or null; the model keeps
    the calendar date that [pd.to_datetime(...).dt.date] leaves of it. *)
Record fixture_json : Type := {
  team_h : Z;
  team_a : Z;
  kickoff_time : option date
}.

(** One SPARQL binding: [None] for a label that is missing, and for a date
    of birth that is missing or that [pd.to_datetime] rejects. *)
Record binding_json : Type := {
  playerLabel : option string;
  dob : option date
}.

(** What the run sees of the outside: [None] is a request that raised. *)
Record world : Type := {
  bootstrap_static : option (list team_json * list element_json);
  sparql : option (list binding_json);
  fixtures_api : option (list fixture_json);
  now : date
}.

(* ===================================================================== *)
(** * Exceptions *)
(* ===================================================================== *)

Inductive exn : Type :=
| KeyError (key : string)
| RequestException.

Inductive result (A : Type) : Type :=
| Return (a : A)
| Raise (e : exn).
Arguments Return {A} a.
Arguments Raise {A} e.

(* ===================================================================== *)
(** * Frames *)
(* ===================================================================== *)

(** A value of a column made by [Series.map(teams)]: [None] is the NaN of
    an id that the dictionary does not have. *)
Definition cell : Type := option string.

(** [==] on such values: NaN equals nothing, not even NaN. *)
Definition cell_eq (a b : cell) : bool :=
  match a, b with
  | Some x, Some y => bool_decide (x = y)
  | _, _ => false
  end.

(** [f"{c}"] *)
Definition str_of_cell (c : cell) : string :=
  match c with
  | Some s => s
  | None => "nan"
  end.

(** A row of [players]: the element with the three added columns. *)
Record player : Type := {
  element : element_json;
  full_name : string;
  match_key : string;
  Team_Name : cell
}.

(** A row of [fixtures] after [dropna]. *)
Record fixture : Type := {
  kickoff : date;
  Home : cell;
  Away : cell
}.

(** An entry of [matches_found]. *)
Record MatchRecord : Type := {
  Date : date;
  Status : string;
  CssClass : string;
  Player : string;
  Team : cell;
  Turning_Age : Z;
  Opponent : string
}.

#[global] Instance MatchRecord_inhabited : Inhabited MatchRecord :=
  populate {| Date := inhabitant; Status := ""; CssClass := ""; Player := "";
              Team := None; Turning_Age := 0; Opponent := "" |}.

(** The frame of match records: its column labels and its rows. *)
Record DataFrame : Type := {
  columns : list string;
  rows : list MatchRecord
}.

(** [pd.DataFrame()] *)
Definition DataFrame_empty : DataFrame := {| columns := []; rows := [] |}.

(** [pd.DataFrame(records)]: the columns are the keys of the dictionaries,
    so a frame made of no record has no column. *)
Definition DataFrame_of (records : list MatchRecord) : DataFrame :=
  {| columns :=
       match records with
       | [] => []
       | _ :: _ =>
           ["Date"; "Status"; "CssClass"; "Player"; "Team"; "Turning Age";
            "Opponent"]
       end;
     rows := records |}.

(** [df.empty]: some axis has length 0. *)
Definition empty (df : DataFrame) : bool :=
  match columns df, rows df with
  | _ :: _, _ :: _ => false
  | _, _ => true
  end.

(** [len(df)] *)
Definition len (df : DataFrame) : nat := length (rows df).

(** [nargsort] of a column of dates without missing values: the index
    array starts as [arange(n)] and is sorted by the dates it points to. *)
Definition nargsort (items : list date) : list nat :=
  aquicksort (fun i j => date_lt (items !!! i) (items !!! j))
             (seq 0 (length items)).

(** [take]: the rows in the order of the indexer. *)
Definition take_rows (indexer : list nat) (rs : list MatchRecord)
    : list MatchRecord :=
  omap (fun i => rs !! i) indexer.

(** [df.sort_values('Date')]: a frame without that column raises. *)
Definition sort_values_Date (df : DataFrame) : result DataFrame :=
  if bool_decide ("Date" ∈ columns df)
  then Return {| columns := columns df;
                 rows := take_rows (nargsort (map Date (rows df))) (rows df) |}
  else Raise (KeyError "Date").

(* ===================================================================== *)
(** * [get_wikidata_birthdays] *)
(* ===================================================================== *)

(** The index from lowered, stripped label to date of birth.  A binding
    that fails is skipped, a later binding with the same key overwrites an
    earlier one, and a request that fails gives the empty dictionary. *)
Definition get_wikidata_birthdays `{StrMethods}
    (response : option (list binding_json)) : gmap string date :=
  match response with
  | None => ∅
  | Some bindings =>
      foldl (fun (dob_map : gmap string date) (item : binding_json) =>
               match playerLabel item, dob item with
               | Some name, Some dob_date =>
                   <[strip (lower name) := dob_date]> dob_map
               | _, _ => dob_map
               end)
            ∅ bindings
  end.

(* ===================================================================== *)
(** * [get_data] *)
(* ===================================================================== *)

(** The first [try] block: the dictionary of team names and the frame of
    players with its added columns.  [pd.DataFrame([])] has no column, so
    reading ['first_name'] of an empty roster raises like a failed request
    does. *)
Definition fetch_roster `{StrMethods}
    (response : option (list team_json * list element_json))
    : result (gmap Z string * list player) :=
  match response with
  | None => Raise RequestException
  | Some (data_teams, data_elements) =>
      let teams : gmap Z string :=
        foldl (fun (d : gmap Z string) t => <[id t := name t]> d) ∅ data_teams in
      match data_elements with
      | [] => Raise (KeyError "first_name")
      | _ :: _ =>
          Return (teams,
                  map (fun e =>
                         let fn := first_name e +:+ " " +:+ second_name e in
                         {| element := e;
                            full_name := fn;
                            match_key := strip (lower fn);
                            Team_Name := teams !! team e |})
                      data_elements)
      end
  end.

(** The second [try] block: fixtures with a kickoff date, with the names of
    both sides. *)
Definition fetch_fixtures (response : option (list fixture_json))
    (teams : gmap Z string) : result (list fixture) :=
  match response with
  | None => Raise RequestException
  | Some [] => Raise (KeyError "kickoff_time")
  | Some fix_resp =>
      Return (omap (fun f =>
                      match kickoff_time f with
                      | None => None
                      | Some d =>
                          Some {| kickoff := d;
                                  Home := teams !! team_h f;
                                  Away := teams !! team_a f |}
                      end)
                   fix_resp)
  end.

(** Lines 91-94: the full name first, the short name when that is absent. *)
Definition resolve_dob `{StrMethods} (dob_map : gmap string date)
    (p : player) : option date :=
  match dob_map !! match_key p with
  | Some d => Some d
  | None => dob_map !! strip (lower (web_name (element p)))
  end.

(** Line 98: the fixtures with the player's team on either side. *)
Definition team_fix (fixtures : list fixture) (p_team : cell) : list fixture :=
  List.filter (fun m => cell_eq (Home m) p_team || cell_eq (Away m) p_team)
              fixtures.

Definition PLAYED : string := "✅ PLAYED".
Definition UPCOMING : string := "🔜 UPCOMING".

(** Lines 105-118: the dictionary appended for a fixture on the birthday. *)
Definition match_record (today : date) (p : player) (p_dob : date)
    (m : fixture) : MatchRecord :=
  let p_team := Team_Name p in
  let m_date := kickoff m in
  let venue := if cell_eq p_team (Home m) then "vs" else "@" in
  let opponent := if cell_eq p_team (Home m) then Away m else Home m in
  let status := if date_lt m_date today then PLAYED else UPCOMING in
  let css_class := if date_lt m_date today then "played" else "upcoming" in
  {| Date := m_date;
     Status := status;
     CssClass := css_class;
     Player := full_name p;
     Team := p_team;
     Turning_Age := year m_date - year p_dob;
     Opponent := venue +:+ " " +:+ str_of_cell opponent |}.

(** Line 104: same month and same day. *)
Definition birthday_match (m_date p_dob : date) : bool :=
  (month m_date =? month p_dob) && (day m_date =? day p_dob).

(** The body of the loop over the players: what one player appends. *)
Definition player_matches `{StrMethods} (today : date)
    (dob_map : gmap string date) (fixtures : list fixture) (p : player)
    : list MatchRecord :=
  match resolve_dob dob_map p with
  | None => []
  | Some p_dob =>
      flat_map (fun m =>
                  if birthday_match (kickoff m) p_dob
                  then [match_record today p p_dob m]
                  else [])
               (team_fix fixtures (Team_Name p))
  end.

(** [matches_found] after the loop. *)
Definition matches_found `{StrMethods} (today : date)
    (dob_map : gmap string date) (fixtures : list fixture)
    (players : list player) : list MatchRecord :=
  flat_map (player_matches today dob_map fixtures) players.

Definition get_data `{StrMethods} (w : world) : result DataFrame :=
  match fetch_roster (bootstrap_static w) with
  | Raise _ => Return DataFrame_empty
  | Return (teams, players) =>
      let dob_map := get_wikidata_birthdays (sparql w) in
      if bool_decide (dob_map = ∅) then Return DataFrame_empty
      else
        match fetch_fixtures (fixtures_api w) teams with
        | Raise _ => Return DataFrame_empty
        | Return fixtures =>
            let today := now w in
            sort_values_Date
              (DataFrame_of (matches_found today dob_map fixtures players))
        end
  end.

(* ===================================================================== *)
(** * The report *)
(* ===================================================================== *)

(** [d.strftime('%b')] in the C locale. *)
Definition strftime_b (d : date) : string :=
  nth (Z.to_nat (month d - 1))
      ["Jan"; "Feb"; "Mar"; "Apr"; "May"; "Jun";
       "Jul"; "Aug"; "Sep"; "Oct"; "Nov"; "Dec"] "".

(** The first f-string: everything up to the summary line, which shows
    [len(df)]. *)
Definition html_head (n : nat) : string :=
  "
<!DOCTYPE html>
<html>
<head>
    <title>PL Birthday Matches (Full Season)</title>
    <meta name="
    +:+ quoted "viewport"
    +:+ " content="
    +:+ quoted "width=device-width, initial-scale=1"
    +:+ ">
    <style>
        body { font-family: -apple-system, sans-serif; max-width: 800px; margin: 2rem auto; padding: 1rem; background: #f0f2f5; }
        h1 { text-align: center; color: #38003c; }
        .summary { text-align: center; margin-bottom: 2rem; color: #555; }
        .card { background: white; padding: 1.2rem; margin-bottom: 1rem; border-radius: 8px; display: flex; align-items: center; box-shadow: 0 1px 3px rgba(0,0,0,0.1); }

        /* Different borders for Past vs Future */
        .played { border-left: 5px solid #aaa; opacity: 0.8; }
        .upcoming { border-left: 5px solid #00ff85; }

        .date-col { width: 80px; text-align: center; margin-right: 1rem; }
        .day { font-size: 1.4rem; font-weight: 800; color: #333; }
        .month { font-size: 0.8rem; text-transform: uppercase; font-weight: 700; color: #777; }

        .info-col { flex-grow: 1; }
        .player { font-size: 1.2rem; font-weight: 700; }
        .details { color: #555; }

        .status-tag { font-size: 0.7rem; padding: 2px 6px; border-radius: 4px; vertical-align: middle; margin-left: 10px; }
        .played .status-tag { background: #eee; color: #555; }
        .upcoming .status-tag { background: #00ff85; color: #38003c; font-weight: bold; }
    </style>
</head>
<body>
    <h1>📅 Full Season Birthday Matches</h1>
    <div class="
    +:+ quoted "summary"
    +:+ ">Found "
    +:+ str_of_Z (Z.of_nat n)
    +:+ " matches for the 2025-26 Season</div>
".

(** The f-string appended for one row. *)
Definition html_card (row : MatchRecord) : string :=
  "
        <div class=" +:+ quoted ("card " +:+ CssClass row) +:+ ">
            <div class=" +:+ quoted "date-col" +:+ ">
                <div class=" +:+ quoted "day" +:+ ">"
    +:+ str_of_Z (day (Date row)) +:+ "</div>
                <div class=" +:+ quoted "month" +:+ ">"
    +:+ strftime_b (Date row) +:+ "</div>
            </div>
            <div class=" +:+ quoted "info-col" +:+ ">
                <div class=" +:+ quoted "player" +:+ ">"
    +:+ Player row +:+ " <span class=" +:+ quoted "status-tag" +:+ ">"
    +:+ Status row +:+ "</span></div>
                <div class=" +:+ quoted "details" +:+ ">Turn "
    +:+ str_of_Z (Turning_Age row) +:+ " • <b>" +:+ str_of_cell (Team row)
    +:+ "</b> " +:+ Opponent row +:+ "</div>
            </div>
        </div>
        ".

Definition html_no_matches : string :=
  "<p style='text-align:center'>No matches found.</p>".

(** [html_content] when the script reaches the [open] call. *)
Definition html_content (df : DataFrame) : string :=
  html_head (len df)
  +:+ (if negb (empty df)
       then foldl (fun html row => html +:+ html_card row) "" (rows df)
       else html_no_matches)
  +:+ "</body></html>".

(** How a run ends: the file it wrote, or the exception nobody caught. *)
Inductive outcome : Type :=
| Written (path content : string)
| Uncaught (e : exn).

(** The script from [df = get_data()] to the end. *)
Definition main `{StrMethods} (w : world) : outcome :=
  match get_data w with
  | Raise e => Uncaught e
  | Return df => Written "index.html" (html_content df)
  end.

(* ===================================================================== *)
(** * Vocabulary of the statements *)
(* ===================================================================== *)

(** [d1 <= d2] on dates. *)
Definition date_le (d1 d2 : date) : Prop := date_lt d2 d1 = false.

(** The list [matches_found] that a run builds; a run that returns early
    builds none. *)
Definition found `{StrMethods} (w : world) : list MatchRecord :=
  match fetch_roster (bootstrap_static w) with
  | Raise _ => []
  | Return (teams, players) =>
      let dob_map := get_wikidata_birthdays (sparql w) in
      if bool_decide (dob_map = ∅) then []
      else
        match fetch_fixtures (fixtures_api w) teams with
        | Raise _ => []
        | Return fixtures => matches_found (now w) dob_map fixtures players
        end
  end.

(** A [try] block that ends in its [except] branch. *)
Definition raises {A : Type} (r : result A) : Prop := exists e, r = Raise e.

(** Where a record of the output comes from: a player of the roster with a
    resolved date of birth and a fixture of the player's team on that
    month and day. *)
Definition origin `{StrMethods} (w : world) (r : MatchRecord)
    (p : player) (p_dob : date) (m : fixture) : Prop :=
  exists teams players fixtures,
    fetch_roster (bootstrap_static w) = Return (teams, players)
    /\ fetch_fixtures (fixtures_api w) teams = Return fixtures
    /\ In p players
    /\ resolve_dob (get_wikidata_birthdays (sparql w)) p = Some p_dob
    /\ In m fixtures
    /\ cell_eq (Home m) (Team_Name p) || cell_eq (Away m) (Team_Name p) = true
    /\ birthday_match (kickoff m) p_dob = true
    /\ r = match_record (now w) p p_dob m.



(** What opens a card in the document. *)
Definition card_marker : string := "<div class=" +:+ dq +:+ "card ".

(** The document of a frame without rows. *)
Definition html_empty_report : string :=
  html_head 0 +:+ html_no_matches +:+ "</body></html>".

(* ===================================================================== *)
(** * Runs used as examples *)
(* ===================================================================== *)

Definition two_teams : list team_json :=
  [ {| id := 1; name := "Alpha FC" |}; {| id := 2; name := "Beta FC" |} ].

Definition john_smith : element_json :=
  {| first_name := "John"; second_name := "Smith"; web_name := "J. Smith";
     team := 1 |}.

(** The dictionary of [two_teams]. *)
Definition alpha_beta : gmap Z string :=
  <[2 := "Beta FC"]> (<[1 := "Alpha FC"]> ∅).

(** Scenario 1: John Smith of Alpha FC, born 1998-05-10, and Alpha FC at
    home to Beta FC on 2026-05-10; the run is on 2025-01-01. *)
Definition scenario1 : world :=
  {| bootstrap_static := Some (two_teams, [john_smith]);
     sparql := Some [ {| playerLabel := Some "John Smith";
                         dob := Some (mkdate 1998 5 10) |} ];
     fixtures_api := Some [ {| team_h := 1; team_a := 2;
                               kickoff_time := Some (mkdate 2026 5 10) |} ];
     now := mkdate 2025 1 1 |}.

Definition scenario1_record : MatchRecord :=
  {| Date := mkdate 2026 5 10;
     Status := UPCOMING;
     CssClass := "upcoming";
     Player := "John Smith";
     Team := Some "Alpha FC";
     Turning_Age := 28;
     Opponent := "vs Beta FC" |}.

Definition scenario1_frame : DataFrame :=
  DataFrame_of [scenario1_record].

(** Scenario 2: the same fixture with the sides swapped. *)
Definition scenario2 : world :=
  {| bootstrap_static := bootstrap_static scenario1;
     sparql := sparql scenario1;
     fixtures_api := Some [ {| team_h := 2; team_a := 1;
                               kickoff_time := Some (mkdate 2026 5 10) |} ];
     now := now scenario1 |}.

(** Scenario 3: the index knows the player by the short name only. *)
Definition scenario3 : world :=
  {| bootstrap_static := bootstrap_static scenario1;
     sparql := Some [ {| playerLabel := Some "J. Smith";
                         dob := Some (mkdate 1998 5 10) |} ];
     fixtures_api := fixtures_api scenario1;
     now := now scenario1 |}.

(** Scenario 4: the fixtures request fails. *)
Definition scenario4 : world :=
  {| bootstrap_static := bootstrap_static scenario1;
     sparql := sparql scenario1;
     fixtures_api := None;
     now := now scenario1 |}.

(** Scenario 5: both fixtures between the two teams fall on the birthday,
    a year apart; the run is on the day of the second one. *)
Definition scenario5 : world :=
  {| bootstrap_static := bootstrap_static scenario1;
     sparql := sparql scenario1;
     fixtures_api := Some [ {| team_h := 2; team_a := 1;
                               kickoff_time := Some (mkdate 2026 5 10) |};
                            {| team_h := 1; team_a := 2;
                               kickoff_time := Some (mkdate 2025 5 10) |};
                            {| team_h := 1; team_a := 2;
                               kickoff_time := None |} ];
     now := mkdate 2026 5 10 |}.

(** All three requests succeed, and the only fixture is a day after the
    birthday. *)
Definition day_late : world :=
  {| bootstrap_static := bootstrap_static scenario1;
     sparql := sparql scenario1;
     fixtures_api := Some [ {| team_h := 1; team_a := 2;
                               kickoff_time := Some (mkdate 2026 5 11) |} ];
     now := now scenario1 |}.

(** A player whose team id 99 is not among the teams. *)
Definition stray_element : element_json :=
  {| first_name := "Sam"; second_name := "Stray"; web_name := "Stray";
     team := 99 |}.

Definition stray_player : player :=
  {| element := stray_element;
     full_name := "Sam Stray";
     match_key := "sam stray";
     Team_Name := None |}.

Definition john_smith_player : player :=
  {| element := john_smith;
     full_name := "John Smith";
     match_key := "john smith";
     Team_Name := Some "Alpha FC" |}.

(** Eighteen players of Alpha FC born on a 26 December, and Alpha FC at
    home to Beta FC on 2025-12-26. *)
Definition squad_names : list string :=
  ["Ab"; "Bo"; "Cy"; "Di"; "Ed"; "Fu"; "Gil"; "Hal"; "Ian";
   "Jo"; "Kit"; "Lu"; "Max"; "Ned"; "Oz"; "Pat"; "Quin"; "Rex"].

Definition boxing_day : world :=
  {| bootstrap_static :=
       Some (two_teams,
             map (fun n => {| first_name := n; second_name := "Doe";
                              web_name := n; team := 1 |})
                 squad_names);
     sparql :=
       Some (map (fun n => {| playerLabel := Some (n +:+ " Doe");
                              dob := Some (mkdate 1999 12 26) |})
                 squad_names);
     fixtures_api := Some [ {| team_h := 1; team_a := 2;
                               kickoff_time := Some (mkdate 2025 12 26) |} ];
     now := mkdate 2025 8 1 |}.

(* ===================================================================== *)
(** * Further vocabulary *)
(* ===================================================================== *)



(** The names of the teams listed under [i], in the order of the answer. *)
Definition names_of_id (i : Z) (data_teams : list team_json) : list string :=
  omap (fun t => if decide (id t = i) then Some (name t) else None)
       data_teams.

(** The three ways in which [get_data] returns before the loop. *)
Definition returns_early `{StrMethods} (w : world) : Prop :=
  raises (fetch_roster (bootstrap_static w))
  \/ get_wikidata_birthdays (sparql w) = ∅
  \/ (forall teams, raises (fetch_fixtures (fixtures_api w) teams)).

(** The same run with another answer of the fixtures service, and with
    another date of the clock. *)
Definition with_fixtures (w : world) (answer : option (list fixture_json))
    : world :=
  {| bootstrap_static := bootstrap_static w;
     sparql := sparql w;
     fixtures_api := answer;
     now := now w |}.

Definition with_now (w : world) (today : date) : world :=
  {| bootstrap_static := bootstrap_static w;
     sparql := sparql w;
     fixtures_api := fixtures_api w;
     now := today |}.

(** A record with the two fields that depend on the clock set for
    [today]. *)
Definition restamp (today : date) (r : MatchRecord) : MatchRecord :=
  {| Date := Date r;
     Status := if date_lt (Date r) today then PLAYED else UPCOMING;
     CssClass := if date_lt (Date r) today then "played" else "upcoming";
     Player := Player r;
     Team := Team r;
     Turning_Age := Turning_Age r;
     Opponent := Opponent r |}.

(** The labels of the frame made of at least one record. *)
Definition record_columns : list string :=
  ["Date"; "Status"; "CssClass"; "Player"; "Team"; "Turning Age"; "Opponent"].

(** The cards of the document, in the order of the rows. *)
Definition html_cards (rs : list MatchRecord) : string :=
  foldl (fun html row => html +:+ html_card row) "" rs.

(** Two bindings of one player, a binding without a date between them. *)
Definition twice_bound : list binding_json :=
  [ {| playerLabel := Some "John Smith"; dob := Some (mkdate 1990 1 1) |};
    {| playerLabel := Some "Nobody"; dob := None |};
    {| playerLabel := Some " JOHN SMITH "; dob := Some (mkdate 1998 5 10) |} ].

(** Scenario 1 with a fixture without kickoff time before the real one. *)
Definition scenario1_postponed : world :=
  with_fixtures scenario1
    (Some [ {| team_h := 2; team_a := 1; kickoff_time := None |};
            {| team_h := 1; team_a := 2;
               kickoff_time := Some (mkdate 2026 5 10) |} ]).

(** Scenario 1 when no fixture has a kickoff time yet. *)
Definition scenario1_unscheduled : world :=
  with_fixtures scenario1
    (Some [ {| team_h := 1; team_a := 2; kickoff_time := None |} ]).

(** Scenario 1 with an empty list of fixtures. *)
Definition scenario1_no_fixtures : world :=
  with_fixtures scenario1 (Some []).

Definition scenario1_fixture : fixture :=
  {| kickoff := mkdate 2026 5 10;
     Home := Some "Alpha FC";
     Away := Some "Beta FC" |}.

(* ===================================================================== *)
(** * Correctness of the indirect sort

    For a comparison that is a strict weak order, [aquicksort] returns a
    permutation of the index array in which no entry is below an earlier
    one.  Every step of the three sorts is a swap inside the range it works
    on, or a chain of moves that amounts to such swaps once the saved entry
    is put back. *)
(* ===================================================================== *)

Section AquicksortCorrect.
Context {A : Type} `{Inhabited A}.
Variable less : A -> A -> bool.
Hypothesis less_irrefl : forall x, less x x = false.
Hypothesis less_trans :
  forall x y z, less x y = true -> less y z = true -> less x z = true.
Hypothesis less_incomp :
  forall x y z, less y x = false -> less z y = false -> less z x = false.

Local Open Scope nat_scope.

Lemma le_of_refl x : le_of less x x.
Proof. apply less_irrefl. Qed.

Lemma le_of_trans x y z : le_of less x y -> le_of less y z -> le_of less x z.
Proof. unfold le_of. eauto. Qed.

Lemma less_le_of x y : less x y = true -> le_of less x y.
Proof.
  unfold le_of. intros Hxy. destruct (less y x) eqn:Hyx; [|done].
  rewrite <- (less_irrefl x). symmetry. eauto.
Qed.

Ltac arr :=
  repeat first
    [ rewrite length_insert
    | rewrite list_lookup_total_insert_eq by (rewrite ?length_insert; lia)
    | rewrite list_lookup_total_insert_ne by lia ].

Lemma length_swap (a : list A) i j : length (swap a i j) = length a.
Proof. unfold swap. by arr. Qed.

Lemma swap_lookup_l (a : list A) i j :
  i < length a -> j < length a -> swap a i j !!! i = a !!! j.
Proof.
  intros. unfold swap. destruct (decide (i = j)) as [->|]; by arr.
Qed.

Lemma swap_lookup_r (a : list A) i j :
  i < length a -> j < length a -> swap a i j !!! j = a !!! i.
Proof. intros. unfold swap. by arr. Qed.

Lemma swap_lookup_ne (a : list A) i j k :
  k <> i -> k <> j -> swap a i j !!! k = a !!! k.
Proof. intros. unfold swap. by arr. Qed.

Lemma swap_perm (a : list A) i j :
  i < length a -> j < length a -> swap a i j ≡ₚ a.
Proof.
  intros Hi Hj. unfold swap.
  apply Permutation_insert_swap; by apply list_lookup_lookup_total_lt.
Qed.

Lemma rearr_length pl pr (a b : list A) : rearr pl pr a b -> length b = length a.
Proof. induction 1; [done|]. by rewrite length_swap. Qed.

Lemma rearr_outside pl pr (a b : list A) k :
  rearr pl pr a b -> ~ (pl <= k <= pr) -> b !!! k = a !!! k.
Proof.
  induction 1; intros; [done|].
  rewrite swap_lookup_ne by lia. auto.
Qed.

Lemma rearr_perm pl pr (a b : list A) : rearr pl pr a b -> a ≡ₚ b.
Proof.
  induction 1; [done|]. rewrite swap_perm by lia. done.
Qed.

Lemma rearr_inside pl pr (a b : list A) (P : A -> Prop) :
  rearr pl pr a b ->
  (forall k, pl <= k <= pr -> P (a !!! k)) ->
  forall k, pl <= k <= pr -> P (b !!! k).
Proof.
  induction 1; intros Ha k Hk; [auto|].
  destruct (decide (k = j)) as [->|].
  { rewrite swap_lookup_r by lia. auto. }
  destruct (decide (k = i)) as [->|].
  { rewrite swap_lookup_l by lia. auto. }
  rewrite swap_lookup_ne by lia. auto.
Qed.

Lemma rearr_trans pl pr (a b c : list A) :
  rearr pl pr a b -> rearr pl pr b c -> rearr pl pr a c.
Proof. intros Hab Hbc. induction Hbc; [done|]. apply rearr_swap; auto. Qed.

Lemma rearr_weaken pl pr pl' pr' (a b : list A) :
  rearr pl pr a b -> pl' <= pl -> pr <= pr' -> pr' < length a ->
  rearr pl' pr' a b.
Proof.
  intros Hab. induction Hab as [|a b i j Hab IH]; intros; [constructor|].
  apply rearr_swap; [auto|lia|lia|].
  rewrite (rearr_length _ _ _ _ Hab). lia.
Qed.

Lemma rearr_swap1 pl pr (a : list A) i j :
  pl <= i <= pr -> pl <= j <= pr -> pr < length a ->
  rearr pl pr a (swap a i j).
Proof. intros. apply rearr_swap; [constructor|done..]. Qed.


(** ** The partition *)

Lemma median3_spec a pl pm pr :
  pl < pm -> pm < pr -> pr < length a ->
  rearr pl pr a (median3 less a pl pm pr)
  /\ le_of less (median3 less a pl pm pr !!! pl) (median3 less a pl pm pr !!! pm)
  /\ le_of less (median3 less a pl pm pr !!! pm) (median3 less a pl pm pr !!! pr).
Proof.
  intros Hlm Hmr Hr. unfold median3.
  set (a1 := if less (a !!! pm) (a !!! pl) then swap a pm pl else a).
  assert (H1 : rearr pl pr a a1 /\ le_of less (a1 !!! pl) (a1 !!! pm)
               /\ a1 !!! pr = a !!! pr).
  { subst a1. destruct (less (a !!! pm) (a !!! pl)) eqn:E.
    - split; [apply rearr_swap1; lia|].
      rewrite swap_lookup_l, swap_lookup_r, swap_lookup_ne by lia.
      split; [by apply less_le_of|done].
    - split; [constructor|]. done. }
  destruct H1 as (R1 & L1 & E1).
  assert (Hlen1 : length a1 = length a) by eauto using rearr_length.
  clearbody a1.
  set (a2 := if less (a1 !!! pr) (a1 !!! pm) then swap a1 pr pm else a1).
  assert (H2 : rearr pl pr a a2 /\ le_of less (a2 !!! pm) (a2 !!! pr)
               /\ (le_of less (a2 !!! pl) (a2 !!! pm) \/ le_of less (a2 !!! pl) (a2 !!! pr))).
  { subst a2. destruct (less (a1 !!! pr) (a1 !!! pm)) eqn:E.
    - split; [eapply rearr_trans; [done|apply rearr_swap1; lia]|].
      rewrite swap_lookup_l, swap_lookup_r, swap_lookup_ne by lia.
      split; [by apply less_le_of|by right].
    - split; [done|]. split; [done|by left]. }
  destruct H2 as (R2 & L2 & L2').
  assert (Hlen2 : length a2 = length a) by eauto using rearr_length.
  clearbody a2.
  destruct (less (a2 !!! pm) (a2 !!! pl)) eqn:E.
  - split; [eapply rearr_trans; [done|apply rearr_swap1; lia]|].
    rewrite swap_lookup_l, swap_lookup_r, swap_lookup_ne by lia.
    split; [by apply less_le_of|].
    destruct L2' as [L|L]; [|done].
    unfold le_of in L. congruence.
  - split; [done|]. done.
Qed.

Lemma scan_up_spec fuel a vp : forall p q,
  p <= q -> q - p < fuel -> less (a !!! q) vp = false ->
  p <= scan_up less fuel a vp p <= q
  /\ less (a !!! scan_up less fuel a vp p) vp = false
  /\ forall k, p <= k < scan_up less fuel a vp p -> less (a !!! k) vp = true.
Proof.
  induction fuel as [|fuel IH]; intros p q Hpq Hfuel Hq; [lia|].
  simpl. destruct (less (a !!! p) vp) eqn:E.
  - destruct (decide (p = q)) as [->|]; [congruence|].
    destruct (IH (S p) q) as (Hr & Hstop & Hbelow); [lia|lia|done|].
    split; [lia|]. split; [done|].
    intros k Hk. destruct (decide (k = p)) as [->|]; [done|].
    apply Hbelow. lia.
  - split; [lia|]. split; [done|]. intros; lia.
Qed.

Lemma scan_down_spec fuel a vp : forall p q,
  q <= p -> p - q < fuel -> less vp (a !!! q) = false ->
  q <= scan_down less fuel a vp p <= p
  /\ less vp (a !!! scan_down less fuel a vp p) = false
  /\ forall k, scan_down less fuel a vp p < k <= p -> less vp (a !!! k) = true.
Proof.
  induction fuel as [|fuel IH]; intros p q Hpq Hfuel Hq; [lia|].
  simpl. destruct (less vp (a !!! p)) eqn:E.
  - destruct (decide (p = q)) as [->|]; [congruence|].
    destruct (IH (p - 1) q) as (Hr & Hstop & Habove); [lia|lia|done|].
    split; [lia|]. split; [done|].
    intros k Hk. destruct (decide (k = p)) as [->|]; [done|].
    apply Habove. lia.
  - split; [lia|]. split; [done|]. intros; lia.
Qed.

Lemma partition_loop_spec a0 vp pl pr : forall fuel a pi pj,
  pj - pi <= fuel ->
  rearr pl pr a0 a -> pr < length a ->
  pl <= pi -> pi < pj -> pj <= pr - 1 ->
  a !!! (pr - 1) = vp ->
  (forall k, pl <= k <= pi -> le_of less (a !!! k) vp) ->
  (forall k, pj <= k <= pr -> le_of less vp (a !!! k)) ->
  rearr pl pr a0 (partition_loop less fuel a vp pi pj).1
  /\ pl < (partition_loop less fuel a vp pi pj).2 <= pr - 1
  /\ (partition_loop less fuel a vp pi pj).1 !!! (pr - 1) = vp
  /\ (forall k, pl <= k < (partition_loop less fuel a vp pi pj).2 ->
        le_of less ((partition_loop less fuel a vp pi pj).1 !!! k) vp)
  /\ (forall k, (partition_loop less fuel a vp pi pj).2 <= k <= pr ->
        le_of less vp ((partition_loop less fuel a vp pi pj).1 !!! k)).
Proof.
  induction fuel as [|fuel IH];
    intros a pi pj Hfuel Hre Hlen Hpl Hij Hpr Hvp Hlo Hhi; [lia|].
  simpl.
  destruct (scan_up_spec (length a) a vp (S pi) pj) as (Hu & Hustop & Hubelow);
    [lia|lia|apply Hhi; lia|].
  destruct (scan_down_spec (length a) a vp (pj - 1) pi) as (Hd & Hdstop & Hdabove);
    [lia|lia|apply Hlo; lia|].
  set (pi' := scan_up less (length a) a vp (S pi)) in *.
  set (pj' := scan_down less (length a) a vp (pj - 1)) in *.
  assert (Hlo' : forall k, pl <= k < pi' -> le_of less (a !!! k) vp).
  { intros k Hk. destruct (decide (k <= pi)); [apply Hlo; lia|].
    apply less_le_of, Hubelow. lia. }
  assert (Hhi' : forall k, pj' < k <= pr -> le_of less vp (a !!! k)).
  { intros k Hk. destruct (decide (pj <= k)); [apply Hhi; lia|].
    apply less_le_of, Hdabove. lia. }
  destruct (Nat.leb_spec pj' pi') as [Hbreak|Hcont]; simpl.
  - split; [done|]. split; [lia|]. split; [done|]. split; [done|].
    intros k Hk. destruct (decide (k = pi')) as [->|]; [done|].
    apply Hhi'. lia.
  - apply IH.
    + lia.
    + apply rearr_swap; [done|lia..].
    + rewrite length_swap. lia.
    + lia.
    + lia.
    + lia.
    + rewrite swap_lookup_ne by lia. done.
    + intros k Hk. destruct (decide (k = pi')) as [->|].
      * rewrite swap_lookup_l by lia. done.
      * rewrite swap_lookup_ne by lia. apply Hlo'. lia.
    + intros k Hk. destruct (decide (k = pj')) as [->|].
      * rewrite swap_lookup_r by lia. done.
      * rewrite swap_lookup_ne by lia. apply Hhi'. lia.
Qed.

Lemma partition_range_spec a pl pr :
  pl + 3 <= pr -> pr < length a ->
  rearr pl pr a (partition_range less a pl pr).1
  /\ pl < (partition_range less a pl pr).2 < pr
  /\ (forall k, pl <= k < (partition_range less a pl pr).2 ->
        le_of less ((partition_range less a pl pr).1 !!! k)
              ((partition_range less a pl pr).1 !!! (partition_range less a pl pr).2))
  /\ (forall k, (partition_range less a pl pr).2 < k <= pr ->
        le_of less ((partition_range less a pl pr).1 !!! (partition_range less a pl pr).2)
              ((partition_range less a pl pr).1 !!! k)).
Proof.
  intros Hsize Hlen. unfold partition_range.
  assert (Hshift : Nat.shiftr (pr - pl) 1 = (pr - pl) / 2).
  { rewrite Nat.shiftr_div_pow2. done. }
  rewrite Hshift.
  set (pm := pl + (pr - pl) / 2).
  assert (Hpm : pl < pm < pr - 1).
  { subst pm. pose proof (Nat.div_mod_eq (pr - pl) 2).
    pose proof (Nat.mod_upper_bound (pr - pl) 2). lia. }
  destruct (median3_spec a pl pm pr) as (R1 & Llm & Lmr); [lia..|].
  set (a1 := median3 less a pl pm pr) in *.
  assert (Hlen1 : length a1 = length a) by eauto using rearr_length.
  clearbody a1.
  set (vp := a1 !!! pm) in *.
  set (a2 := swap a1 pm (pr - 1)).
  assert (Hlen2 : length a2 = length a) by (subst a2; by rewrite length_swap).
  pose proof (partition_loop_spec a vp pl pr (length a2) a2 pl (pr - 1)) as Hloop.
  destruct (partition_loop less (length a2) a2 vp pl (pr - 1)) as [a3 pi].
  simpl in *.
  destruct Hloop as (R3 & Hpi & Hvp & Hlo & Hhi).
  - lia.
  - subst a2. eapply rearr_trans; [done|apply rearr_swap1; lia].
  - lia.
  - lia.
  - lia.
  - lia.
  - subst a2. rewrite swap_lookup_r by lia. done.
  - intros k Hk. assert (k = pl) as -> by lia.
    subst a2. rewrite swap_lookup_ne by lia. done.
  - intros k Hk. subst a2. destruct (decide (k = pr)) as [->|].
    + rewrite swap_lookup_ne by lia. done.
    + assert (k = pr - 1) as -> by lia.
      rewrite swap_lookup_r by lia. apply le_of_refl.
  - assert (Hlen3 : length a3 = length a) by eauto using rearr_length.
    split; [apply rearr_swap; [done|lia..]|].
    split; [lia|].
    rewrite swap_lookup_l by lia. rewrite Hvp.
    split.
    + intros k Hk. rewrite swap_lookup_ne by lia. apply Hlo. lia.
    + intros k Hk. destruct (decide (k = pr - 1)) as [->|].
      * rewrite swap_lookup_r by lia. apply Hhi. lia.
      * rewrite swap_lookup_ne by lia. apply Hhi. lia.
Qed.


(** ** Insertion sort *)

Lemma insertion_shift_spec a0 vp pl pi : forall fuel a pj,
  pj - pl <= fuel -> pl <= pj -> pj <= pi -> pi < length a ->
  rearr pl pi a0 (<[pj := vp]> a) ->
  (forall i j, pl <= i -> i < j -> j <= pi -> i <> pj -> j <> pj ->
     le_of less (a !!! i) (a !!! j)) ->
  (forall k, pj < k <= pi -> less vp (a !!! k) = true) ->
  rearr pl pi a0 (<[(insertion_shift less fuel a vp pl pj).2 := vp]>
                    (insertion_shift less fuel a vp pl pj).1)
  /\ sorted_range less (<[(insertion_shift less fuel a vp pl pj).2 := vp]>
                     (insertion_shift less fuel a vp pl pj).1) pl pi.
Proof.
  assert (Hstop : forall a pj,
    pl <= pj -> pj <= pi -> pi < length a ->
    (pl <? pj) && less vp (a !!! (pj - 1)) = false ->
    (forall i j, pl <= i -> i < j -> j <= pi -> i <> pj -> j <> pj ->
       le_of less (a !!! i) (a !!! j)) ->
    (forall k, pj < k <= pi -> less vp (a !!! k) = true) ->
    sorted_range less (<[pj := vp]> a) pl pi).
  { intros a pj Hpl Hpi Hlen Hcond Hsorted Habove i j Hi Hij Hj.
    destruct (decide (i = j)) as [->|]; [apply le_of_refl|].
    destruct (decide (j = pj)) as [->|].
    - rewrite list_lookup_total_insert_eq by lia.
      rewrite list_lookup_total_insert_ne by lia.
      apply andb_false_iff in Hcond as [Hcond|Hcond].
      { apply Nat.ltb_ge in Hcond. lia. }
      destruct (decide (i = pj - 1)) as [->|]; [done|].
      eapply le_of_trans; [|exact Hcond].
      apply Hsorted; lia.
    - destruct (decide (i = pj)) as [->|].
      + rewrite list_lookup_total_insert_eq by lia.
        rewrite list_lookup_total_insert_ne by lia.
        apply less_le_of, Habove. lia.
      + rewrite !list_lookup_total_insert_ne by lia.
        apply Hsorted; lia. }
  induction fuel as [|fuel IH];
    intros a pj Hfuel Hpl Hpi Hlen Hre Hsorted Habove.
  { simpl. split; [done|]. apply Hstop; try done.
    apply andb_false_iff. left. apply Nat.ltb_ge. lia. }
  simpl. destruct ((pl <? pj) && less vp (a !!! (pj - 1))) eqn:Hcond.
  - apply andb_true_iff in Hcond as [Hlt Hless].
    apply Nat.ltb_lt in Hlt.
    apply IH.
    + lia.
    + lia.
    + lia.
    + by arr.
    + replace (<[pj - 1 := vp]> (<[pj := a !!! (pj - 1)]> a))
        with (swap (<[pj := vp]> a) (pj - 1) pj).
      { apply rearr_swap; [done|lia|lia|]. arr. lia. }
      unfold swap. arr.
      rewrite (list_insert_insert_ne _ pj (pj - 1)) by lia.
      by rewrite list_insert_insert_eq.
    + intros i j Hi Hij Hj Hne1 Hne2.
      destruct (decide (j = pj)) as [->|].
      * rewrite list_lookup_total_insert_eq by lia.
        rewrite list_lookup_total_insert_ne by lia.
        apply Hsorted; lia.
      * destruct (decide (i = pj)) as [->|].
        -- rewrite list_lookup_total_insert_eq by lia.
           rewrite list_lookup_total_insert_ne by lia.
           apply Hsorted; lia.
        -- rewrite !list_lookup_total_insert_ne by lia.
           apply Hsorted; lia.
    + intros k Hk. destruct (decide (k = pj)) as [->|].
      * by rewrite list_lookup_total_insert_eq by lia.
      * rewrite list_lookup_total_insert_ne by lia. apply Habove. lia.
  - simpl. split; [done|]. by apply Hstop.
Qed.

Lemma insertion_step_spec a pl pi :
  pl <= pi -> pi < length a -> sorted_range less a pl (pi - 1) ->
  rearr pl pi a (insertion_step less pl a pi)
  /\ sorted_range less (insertion_step less pl a pi) pl pi.
Proof.
  intros Hpl Hlen Hsorted. unfold insertion_step.
  pose proof (insertion_shift_spec a (a !!! pi) pl pi pi a pi) as Hs.
  destruct (insertion_shift less pi a (a !!! pi) pl pi) as [a' pj].
  simpl in Hs. apply Hs; try lia.
  - rewrite list_insert_id; [constructor|].
    by apply list_lookup_lookup_total_lt.
  - intros i j ? ? ? ? ?. apply Hsorted; lia.
Qed.

Lemma insertion_sort_steps pl : forall n a,
  pl + n < length a ->
  rearr pl (pl + n) a (fold_left (insertion_step less pl) (seq (S pl) n) a)
  /\ sorted_range less (fold_left (insertion_step less pl) (seq (S pl) n) a)
                  pl (pl + n).
Proof.
  induction n as [|n IH]; intros a Hlen.
  { simpl. split; [constructor|].
    intros i j ? ? ?. assert (i = j) as -> by lia. apply le_of_refl. }
  rewrite seq_S, fold_left_app. simpl.
  destruct (IH a) as (Hre & Hsorted); [lia|].
  set (b := fold_left (insertion_step less pl) (seq (S pl) n) a) in *.
  assert (Hlenb : length b = length a) by eauto using rearr_length.
  destruct (insertion_step_spec b pl (S (pl + n))) as (Hre' & Hsorted').
  - lia.
  - lia.
  - replace (S (pl + n) - 1) with (pl + n) by lia. done.
  - replace (pl + S n) with (S (pl + n)) by lia.
    split; [|done].
    eapply rearr_trans; [|done].
    eapply rearr_weaken; [done|lia..].
Qed.

Lemma insertion_sort_spec a pl pr :
  pl <= pr -> pr < length a ->
  rearr pl pr a (insertion_sort less a pl pr)
  /\ sorted_range less (insertion_sort less a pl pr) pl pr.
Proof.
  intros Hpl Hlen. unfold insertion_sort.
  pose proof (insertion_sort_steps pl (pr - pl) a) as Hs.
  replace (pl + (pr - pl)) with pr in Hs by lia.
  apply Hs. lia.
Qed.


(** ** Heapsort *)

Lemma length_hset (a : list A) pl k x : length (hset a pl k x) = length a.
Proof. unfold hset. by arr. Qed.

Lemma hget_hset_eq (a : list A) pl k x :
  pl + k - 1 < length a -> hget (hset a pl k x) pl k = x.
Proof. intros. unfold hget, hset. by arr. Qed.

Lemma hget_hset_ne (a : list A) pl k k' x :
  1 <= k -> 1 <= k' -> k <> k' -> hget (hset a pl k x) pl k' = hget a pl k'.
Proof. intros. unfold hget, hset. by arr. Qed.

Lemma heap_root_max a pl n :
  heap_from less a pl 1 n ->
  forall k, 1 <= k -> k <= n -> le_of less (hget a pl k) (hget a pl 1).
Proof.
  intros Hheap k. induction (lt_wf k) as [k _ IH]. intros Hk1 Hkn.
  destruct (decide (k = 1)) as [->|]; [apply le_of_refl|].
  pose proof (Nat.div_mod_eq k 2) as Hdiv.
  pose proof (Nat.mod_upper_bound k 2).
  eapply le_of_trans; [|apply (IH (k / 2)); lia].
  apply (Hheap (k / 2)); lia.
Qed.

Lemma sift_down_spec a0 pl n l tmp : forall fuel a i,
  1 <= l -> l <= i -> i <= n -> pl + n <= length a ->
  n - i < fuel ->
  rearr pl (pl + n - 1) a0 (hset a pl i tmp) ->
  (forall k c, l <= k -> k <> i -> c <> i -> c = k + k \/ c = S (k + k) ->
     c <= n -> le_of less (hget a pl c) (hget a pl k)) ->
  (forall k, l <= k -> i = k + k \/ i = S (k + k) ->
     le_of less tmp (hget a pl k)) ->
  (forall k c, l <= k -> i = k + k \/ i = S (k + k) ->
     c = i + i \/ c = S (i + i) -> c <= n ->
     le_of less (hget a pl c) (hget a pl k)) ->
  rearr pl (pl + n - 1) a0 (sift_down less fuel a pl tmp n i (i + i))
  /\ heap_from less (sift_down less fuel a pl tmp n i (i + i)) pl l n.
Proof.
  induction fuel as [|fuel IH];
    intros a i Hl Hli Hin Hlen Hfuel Hre Hnodes Hparent Hgrand; [lia|].
  simpl.
  assert (Hdone :
    (forall c, c = i + i \/ c = S (i + i) -> c <= n ->
       le_of less (hget a pl c) tmp) ->
    rearr pl (pl + n - 1) a0 (hset a pl i tmp)
    /\ heap_from less (hset a pl i tmp) pl l n).
  { intros Hchildren. split; [done|].
    intros k Hk c Hc Hcn.
    destruct (decide (k = i)) as [->|].
    - rewrite hget_hset_eq by lia. rewrite hget_hset_ne by lia.
      by apply Hchildren.
    - destruct (decide (c = i)) as [->|].
      + rewrite hget_hset_eq by lia. rewrite hget_hset_ne by lia.
        by apply Hparent.
      + rewrite !hget_hset_ne by lia. by apply Hnodes. }
  destruct (Nat.leb_spec (i + i) n) as [Hjn|Hjn]; [|apply Hdone; intros; lia].
  set (j := if (i + i <? n) && less (hget a pl (i + i)) (hget a pl (i + i + 1))
            then i + i + 1 else i + i).
  assert (Hj : (j = i + i \/ j = S (i + i)) /\ j <= n
               /\ forall c, c = i + i \/ c = S (i + i) -> c <= n ->
                    le_of less (hget a pl c) (hget a pl j)).
  { subst j.
    destruct ((i + i <? n) && less (hget a pl (i + i)) (hget a pl (i + i + 1)))
      eqn:Hsel.
    - apply andb_true_iff in Hsel as [Hlt Hless]. apply Nat.ltb_lt in Hlt.
      split; [lia|]. split; [lia|].
      intros c [->| ->] Hc.
      + by apply less_le_of.
      + replace (i + i + 1) with (S (i + i)) by lia. apply le_of_refl.
    - split; [lia|]. split; [lia|].
      intros c [->| ->] Hc; [apply le_of_refl|].
      apply andb_false_iff in Hsel as [Hge|Hnl].
      + apply Nat.ltb_ge in Hge. lia.
      + replace (S (i + i)) with (i + i + 1) by lia. done. }
  destruct Hj as (Hjc & Hjn' & Hjmax). clearbody j.
  destruct (less tmp (hget a pl j)) eqn:Hless.
  - apply IH.
    + lia.
    + lia.
    + lia.
    + by rewrite length_hset.
    + lia.
    + replace (hset (hset a pl i (hget a pl j)) pl j tmp)
        with (swap (hset a pl i tmp) (pl + i - 1) (pl + j - 1)).
      { apply rearr_swap; [done|lia|lia|]. rewrite length_hset. lia. }
      unfold swap, hset, hget. arr.
      rewrite list_insert_insert_eq. done.
    + intros k c Hk Hkj Hcj Hc Hcn.
      destruct (decide (k = i)) as [->|].
      * rewrite hget_hset_eq by lia. rewrite hget_hset_ne by lia.
        by apply Hjmax.
      * destruct (decide (c = i)) as [->|].
        -- rewrite hget_hset_eq by lia. rewrite hget_hset_ne by lia.
           by apply (Hgrand k j).
        -- rewrite !hget_hset_ne by lia. by apply Hnodes.
    + intros k Hk Hkj. assert (k = i) as -> by lia.
      rewrite hget_hset_eq by lia. by apply less_le_of.
    + intros k c Hk Hkj Hc Hcn. assert (k = i) as -> by lia.
      rewrite hget_hset_eq by lia. rewrite hget_hset_ne by lia.
      apply Hnodes; lia.
  - apply Hdone. intros c Hc Hcn.
    eapply le_of_trans; [by apply Hjmax|done].
Qed.

Lemma heapify_spec pl n : forall l a,
  l <= n -> pl + n <= length a ->
  heap_from less a pl (S l) n ->
  rearr pl (pl + n - 1) a (heapify less l a pl n)
  /\ heap_from less (heapify less l a pl n) pl 1 n.
Proof.
  induction l as [|l IH]; intros a Hln Hlen Hheap.
  { simpl. split; [constructor|done]. }
  simpl.
  destruct (sift_down_spec a pl n (S l) (hget a pl (S l)) n a (S l))
    as (Hre & Hheap'); try lia.
  - unfold hset, hget. rewrite list_insert_id; [constructor|].
    apply list_lookup_lookup_total_lt. lia.
  - intros k c Hk Hki Hci Hc Hcn. apply (Hheap k); [lia|done..].
  - set (b := sift_down less n a pl (hget a pl (S l)) n (S l) (S l + S l)) in *.
    assert (Hlenb : length b = length a) by eauto using rearr_length.
    destruct (IH b) as (Hre2 & Hheap2); [lia|lia|done|].
    split; [|done]. eapply rearr_trans; done.
Qed.

Lemma heap_extract_spec a0 pl N : forall fuel a n,
  n <= fuel -> 1 <= n -> n <= N -> pl + N <= length a ->
  rearr pl (pl + N - 1) a0 a ->
  heap_from less a pl 1 n ->
  (forall i j, n < i -> i <= j -> j <= N ->
     le_of less (hget a pl i) (hget a pl j)) ->
  (forall i j, 1 <= i -> i <= n -> n < j -> j <= N ->
     le_of less (hget a pl i) (hget a pl j)) ->
  rearr pl (pl + N - 1) a0 (heap_extract less fuel a pl n)
  /\ forall i j, 1 <= i -> i <= j -> j <= N ->
       le_of less (hget (heap_extract less fuel a pl n) pl i)
             (hget (heap_extract less fuel a pl n) pl j).
Proof.
  induction fuel as [|fuel IH];
    intros a n Hfuel Hn1 HnN Hlen Hre Hheap Htail Hcross; [lia|].
  simpl. destruct (Nat.ltb_spec 1 n) as [Hn|Hn].
  2:{ split; [done|]. intros i j Hi Hij Hj.
      destruct (decide (i = j)) as [->|]; [apply le_of_refl|].
      destruct (decide (i <= n)); [apply Hcross; lia|apply Htail; lia]. }
  set (tmp := hget a pl n).
  set (a1 := hset a pl n (hget a pl 1)).
  set (f := hset a1 pl 1 tmp).
  assert (Hf : f = swap a (pl + 1 - 1) (pl + n - 1)).
  { subst f a1 tmp. unfold swap, hset, hget.
    rewrite list_insert_insert_ne by lia. done. }
  assert (Hlen1 : length a1 = length a) by (subst a1; by rewrite length_hset).
  assert (Hlenf : length f = length a) by (subst f; by rewrite length_hset).
  assert (Hfv : forall k, 1 <= k ->
            hget f pl k = if decide (k = 1) then hget a pl n
                          else if decide (k = n) then hget a pl 1
                          else hget a pl k).
  { intros k Hk. subst f a1 tmp. repeat case_decide; subst.
    - rewrite hget_hset_eq; [done|]. rewrite length_hset. lia.
    - rewrite hget_hset_ne by lia. rewrite hget_hset_eq by lia. done.
    - rewrite !hget_hset_ne by lia. done. }
  destruct (sift_down_spec f pl (n - 1) 1 tmp (n - 1) a1 1)
    as (Hre2 & Hheap2); try lia.
  { constructor. }
  { intros k c Hk Hk1 Hc1 Hc Hcn. subst a1.
    rewrite !hget_hset_ne by lia. apply (Hheap k); [lia|done|lia]. }
  change (1 + 1) with 2 in Hre2, Hheap2.
  fold tmp. fold a1.
  set (b := sift_down less (n - 1) a1 pl tmp (n - 1) 1 2) in *.
  assert (Hlenb : length b = length a).
  { rewrite (rearr_length _ _ _ _ Hre2). done. }
  assert (Hout : forall k, n <= k -> hget b pl k = hget f pl k).
  { intros k Hk. apply (rearr_outside _ _ _ _ _ Hre2). lia. }
  apply IH.
  - lia.
  - lia.
  - lia.
  - lia.
  - apply rearr_trans with a; [done|]. apply rearr_trans with f.
    + rewrite Hf. apply rearr_swap1; lia.
    + eapply rearr_weaken; [done|lia..].
  - done.
  - intros i j Hi Hij Hj. rewrite !Hout by lia. rewrite !Hfv by lia.
    repeat case_decide; subst; try lia.
    + apply le_of_refl.
    + apply Hcross; lia.
    + apply Htail; lia.
  - intros i j Hi Hin Hnj Hj. rewrite (Hout j) by lia.
    replace (hget b pl i) with (b !!! (pl + i - 1)) by done.
    apply (rearr_inside _ _ _ _ (fun x => le_of less x (hget f pl j)) Hre2);
      [|lia].
    intros p Hp.
    replace (f !!! p) with (hget f pl (p - pl + 1))
      by (unfold hget; f_equal; lia).
    rewrite !Hfv by lia.
    repeat case_decide; subst; try lia.
    + apply heap_root_max with (n := n); [done|lia..].
    + apply Hcross; lia.
    + apply heap_root_max with (n := n); [done|lia..].
    + apply Hcross; lia.
Qed.

Lemma aheapsort_spec a pl n :
  1 <= n -> pl + n <= length a ->
  rearr pl (pl + n - 1) a (aheapsort less a pl n)
  /\ sorted_range less (aheapsort less a pl n) pl (pl + n - 1).
Proof.
  intros Hn Hlen. unfold aheapsort.
  assert (Hshift : Nat.shiftr n 1 = n / 2).
  { rewrite Nat.shiftr_div_pow2. done. }
  rewrite Hshift.
  pose proof (Nat.div_mod_eq n 2) as Hdiv.
  pose proof (Nat.mod_upper_bound n 2).
  destruct (heapify_spec pl n (n / 2) a) as (Hre & Hheap); [lia|lia| |].
  { intros k Hk c Hc Hcn. lia. }
  set (b := heapify less (n / 2) a pl n) in *.
  assert (Hlenb : length b = length a) by eauto using rearr_length.
  destruct (heap_extract_spec a pl n n b n) as (Hre2 & Hsorted);
    [lia|lia|lia|lia|done|done|intros; lia|intros; lia|].
  split; [done|].
  intros i j Hi Hij Hj.
  specialize (Hsorted (i - pl + 1) (j - pl + 1)).
  unfold hget in Hsorted.
  replace (pl + (i - pl + 1) - 1) with i in Hsorted by lia.
  replace (pl + (j - pl + 1) - 1) with j in Hsorted by lia.
  apply Hsorted; lia.
Qed.


(** ** The whole sort *)

Lemma pivot_at_rearr_left a b pl pi pr :
  rearr pl (pi - 1) a b -> pl < pi -> pivot_at less a pl pi pr ->
  pivot_at less b pl pi pr.
Proof.
  intros Hre Hpi [Hlo Hhi].
  unfold pivot_at. rewrite (rearr_outside _ _ _ _ pi Hre); [|lia]. split.
  - intros k Hk.
    apply (rearr_inside _ _ _ _ (fun x => le_of less x (a !!! pi)) Hre); [|lia].
    intros k' Hk'. apply Hlo. lia.
  - intros k Hk. rewrite (rearr_outside _ _ _ _ k Hre); [|lia]. by apply Hhi.
Qed.

Lemma pivot_at_rearr_right a b pl pi pr :
  rearr (pi + 1) pr a b -> pivot_at less a pl pi pr -> pivot_at less b pl pi pr.
Proof.
  intros Hre [Hlo Hhi].
  unfold pivot_at. rewrite (rearr_outside _ _ _ _ pi Hre); [|lia]. split.
  - intros k Hk. rewrite (rearr_outside _ _ _ _ k Hre); [|lia]. by apply Hlo.
  - intros k Hk.
    apply (rearr_inside _ _ _ _ (fun x => le_of less (a !!! pi) x) Hre); [|lia].
    intros k' Hk'. apply Hhi. lia.
Qed.

Lemma sorted_range_rearr_outside a b l r pl pr :
  rearr l r a b -> pr < l \/ r < pl ->
  sorted_range less a pl pr -> sorted_range less b pl pr.
Proof.
  intros Hre Hdisj Hsorted i j Hi Hij Hj.
  rewrite !(rearr_outside _ _ _ _ _ Hre); [|lia..]. by apply Hsorted.
Qed.

Lemma sorted_range_join a pl pi pr :
  sorted_range less a pl (pi - 1) -> sorted_range less a (pi + 1) pr ->
  pivot_at less a pl pi pr -> sorted_range less a pl pr.
Proof.
  intros Hleft Hright [Hlo Hhi] i j Hi Hij Hj.
  destruct (decide (i = j)) as [->|]; [apply le_of_refl|].
  destruct (decide (j < pi)); [apply Hleft; lia|].
  destruct (decide (pi < i)); [apply Hright; lia|].
  destruct (decide (i = pi)) as [->|]; [apply Hhi; lia|].
  destruct (decide (j = pi)) as [->|]; [apply Hlo; lia|].
  apply le_of_trans with (a !!! pi); [apply Hlo|apply Hhi]; lia.
Qed.

Lemma aquicksort_range_spec : forall fuel a pl pr cdepth,
  pl <= pr -> pr < length a -> pr - pl < fuel ->
  rearr pl pr a (aquicksort_range less fuel a pl pr cdepth)
  /\ sorted_range less (aquicksort_range less fuel a pl pr cdepth) pl pr.
Proof.
  induction fuel as [|fuel IH]; intros a pl pr cdepth Hpl Hlen Hfuel; [lia|].
  assert (Hpop : forall a pl pr cdepth,
    pl <= pr -> pr < length a -> pr - pl < fuel ->
    rearr pl pr a (if (cdepth <? 0)%Z then aheapsort less a pl (pr - pl + 1)
                   else aquicksort_range less fuel a pl pr cdepth)
    /\ sorted_range less (if (cdepth <? 0)%Z then aheapsort less a pl (pr - pl + 1)
                     else aquicksort_range less fuel a pl pr cdepth) pl pr).
  { intros b l r d Hl Hr Hf. destruct (d <? 0)%Z; [|by apply IH].
    pose proof (aheapsort_spec b l (r - l + 1)) as Hh.
    replace (l + (r - l + 1) - 1) with r in Hh by lia.
    apply Hh; lia. }
  simpl. unfold SMALL_QUICKSORT.
  destruct (Nat.ltb_spec 16 (pr - pl)) as [Hbig|Hsmall];
    [|by apply insertion_sort_spec].
  pose proof (partition_range_spec a pl pr) as Hpart.
  destruct (partition_range less a pl pr) as [a1 pi]. simpl in Hpart.
  destruct Hpart as (Hre1 & Hpi & Hlo & Hhi); [lia|lia|].
  assert (Hlen1 : length a1 = length a) by eauto using rearr_length.
  assert (Hpiv : pivot_at less a1 pl pi pr) by done.
  destruct (Nat.ltb_spec (pi - pl) (pr - pi)) as [Hside|Hside].
  - destruct (IH a1 pl (pi - 1) (cdepth - 1)%Z) as (Hre2 & Hs2); [lia..|].
    set (a2 := aquicksort_range less fuel a1 pl (pi - 1) (cdepth - 1)) in *.
    assert (Hlen2 : length a2 = length a1) by eauto using rearr_length.
    destruct (Hpop a2 (pi + 1) pr (cdepth - 1)%Z) as (Hre3 & Hs3); [lia..|].
    split.
    + apply rearr_trans with a1; [done|]. apply rearr_trans with a2.
      * eapply rearr_weaken; [done|lia..].
      * eapply rearr_weaken; [done|lia..].
    + apply sorted_range_join with pi; [|done|].
      * eapply sorted_range_rearr_outside; [done|lia|done].
      * eapply pivot_at_rearr_right; [done|].
        eapply pivot_at_rearr_left; [done|lia|done].
  - destruct (IH a1 (pi + 1) pr (cdepth - 1)%Z) as (Hre2 & Hs2); [lia..|].
    set (a2 := aquicksort_range less fuel a1 (pi + 1) pr (cdepth - 1)) in *.
    assert (Hlen2 : length a2 = length a1) by eauto using rearr_length.
    destruct (Hpop a2 pl (pi - 1) (cdepth - 1)%Z) as (Hre3 & Hs3); [lia..|].
    split.
    + apply rearr_trans with a1; [done|]. apply rearr_trans with a2.
      * eapply rearr_weaken; [done|lia..].
      * eapply rearr_weaken; [done|lia..].
    + apply sorted_range_join with pi; [done| |].
      * eapply sorted_range_rearr_outside; [done|lia|done].
      * eapply pivot_at_rearr_left; [done|lia|].
        eapply pivot_at_rearr_right; [done|done].
Qed.

(** [aquicksort] returns a permutation of its argument ... *)
Lemma aquicksort_perm (a : list A) : a ≡ₚ aquicksort less a.
Proof.
  destruct a as [|x a]; [done|].
  unfold aquicksort.
  eapply rearr_perm, aquicksort_range_spec; simpl; lia.
Qed.

(** ... in which no entry is below an earlier one. *)
Lemma aquicksort_sorted (a : list A) i j :
  i <= j -> j < length a ->
  less (aquicksort less a !!! j) (aquicksort less a !!! i) = false.
Proof.
  intros Hij Hj. destruct a as [|x a]; [simpl in Hj; lia|].
  unfold aquicksort.
  eapply aquicksort_range_spec; simpl in *; lia.
Qed.

End AquicksortCorrect.

(* ===================================================================== *)
(** * Up to 17 entries the argsort is stable *)
(* ===================================================================== *)

Lemma index_sorted_StronglySorted {A} `{Inhabited A} (R : A -> A -> Prop)
    (l : list A) :
  (forall i j : nat, (i < j)%nat -> (j < length l)%nat ->
     R (l !!! i) (l !!! j)) ->
  StronglySorted R l.
Proof.
  induction l as [|x l IH]; intros Hs; constructor.
  - apply IH. intros i j Hij Hj. apply (Hs (S i) (S j)); simpl; lia.
  - apply Forall_forall. intros y Hy.
    apply list_elem_of_lookup_total in Hy as (k & Hk & <-).
    apply (Hs 0%nat (S k)); simpl; lia.
Qed.


Section ArgsortStable.
Variable less : nat -> nat -> bool.
Hypothesis less_irrefl : forall x, less x x = false.
Hypothesis less_trans :
  forall x y z, less x y = true -> less y z = true -> less x z = true.
Hypothesis less_incomp :
  forall x y z, less y x = false -> less z y = false -> less z x = false.

Local Open Scope nat_scope.










End ArgsortStable.


(* ===================================================================== *)
(** * The order of dates *)
(* ===================================================================== *)

Lemma date_lt_irrefl d : date_lt d d = false.
Proof. unfold date_lt. destruct d as [y m dd]; simpl. lia. Qed.

Lemma date_lt_trans d1 d2 d3 :
  date_lt d1 d2 = true -> date_lt d2 d3 = true -> date_lt d1 d3 = true.
Proof.
  unfold date_lt. destruct d1, d2, d3; simpl. lia.
Qed.

Lemma date_lt_incomp d1 d2 d3 :
  date_lt d2 d1 = false -> date_lt d3 d2 = false -> date_lt d3 d1 = false.
Proof.
  unfold date_lt. destruct d1, d2, d3; simpl. lia.
Qed.

(* ===================================================================== *)
(** * [nargsort] and [take] *)
(* ===================================================================== *)

Lemma nargsort_perm items : seq 0 (length items) ≡ₚ nargsort items.
Proof.
  unfold nargsort. apply aquicksort_perm.
  - intros. apply date_lt_irrefl.
  - intros ? ? ?. apply date_lt_trans.
  - intros ? ? ?. apply date_lt_incomp.
Qed.

Lemma nargsort_sorted items (i j : nat) :
  (i <= j)%nat -> (j < length items)%nat ->
  date_le (items !!! (nargsort items !!! i)) (items !!! (nargsort items !!! j)).
Proof.
  intros Hij Hj. unfold nargsort, date_le.
  apply (aquicksort_sorted
           (fun i j : nat => date_lt (items !!! i) (items !!! j))).
  - intros. apply date_lt_irrefl.
  - intros ? ? ?. apply date_lt_trans.
  - intros ? ? ?. apply date_lt_incomp.
  - done.
  - by rewrite length_seq.
Qed.

Lemma take_rows_seq_app (l1 l2 : list MatchRecord) :
  take_rows (seq (length l1) (length l2)) (l1 ++ l2)%list = l2.
Proof.
  revert l1. induction l2 as [|x l2 IH]; intros l1; [done|].
  unfold take_rows in *. simpl.
  rewrite list_lookup_middle by done. f_equal.
  specialize (IH (l1 ++ [x])%list).
  rewrite length_app, <- app_assoc in IH. simpl in IH.
  rewrite Nat.add_1_r in IH. done.
Qed.

Lemma take_rows_seq (rs : list MatchRecord) : take_rows (seq 0 (length rs)) rs = rs.
Proof. apply (take_rows_seq_app [] rs). Qed.

Lemma take_rows_perm (ix : list nat) (rs : list MatchRecord) :
  seq 0 (length rs) ≡ₚ ix -> rs ≡ₚ take_rows ix rs.
Proof.
  intros Hperm. rewrite <- (take_rows_seq rs) at 1.
  unfold take_rows. by rewrite Hperm.
Qed.

Lemma take_rows_map (ix : list nat) (rs : list MatchRecord) :
  Forall (fun i => (i < length rs)%nat) ix ->
  take_rows ix rs = map (fun i => rs !!! i) ix.
Proof.
  unfold take_rows. induction 1 as [|i ix Hi _ IH]; [done|].
  simpl. rewrite (list_lookup_lookup_total_lt rs i) by done.
  f_equal. exact IH.
Qed.

Lemma sort_values_Date_rows df df' :
  sort_values_Date df = Return df' ->
  rows df ≡ₚ rows df' /\ StronglySorted date_le (map Date (rows df')).
Proof.
  unfold sort_values_Date. case_bool_decide; [|done].
  intros [= <-]. simpl.
  set (rs := rows df).
  set (items := map Date rs).
  assert (Hlen : length items = length rs) by (subst items; by rewrite length_map).
  assert (Hperm : seq 0 (length rs) ≡ₚ nargsort items).
  { rewrite <- Hlen. apply nargsort_perm. }
  assert (Hin : Forall (fun i => (i < length rs)%nat) (nargsort items)).
  { rewrite <- Hperm. apply Forall_forall. intros i Hi.
    apply elem_of_seq in Hi. lia. }
  split; [by apply take_rows_perm|].
  rewrite take_rows_map by done.
  rewrite map_map.
  assert (Hlenix : length (nargsort items) = length rs).
  { rewrite <- Hperm. by rewrite length_seq. }
  apply index_sorted_StronglySorted.
  intros i j Hij Hj. rewrite length_map in Hj.
  assert (Hget : forall k, (k < length rs)%nat ->
            map (fun x => Date (rs !!! x)) (nargsort items) !!! k
            = items !!! (nargsort items !!! k)).
  { intros k Hk.
    rewrite (list_lookup_total_fmap (fun x => Date (rs !!! x))) by lia.
    subst items.
    assert (Hk' : (nargsort (map Date rs) !!! k < length rs)%nat).
    { eapply Forall_lookup_total_1 in Hin; [exact Hin|lia]. }
    rewrite (list_lookup_total_fmap Date) by done. done. }
  rewrite !Hget by lia.
  apply nargsort_sorted; lia.
Qed.

(* ===================================================================== *)
(** * Up to 17 rows [sort_values] is stable *)
(* ===================================================================== *)






(* ===================================================================== *)
(** * What [get_data] returns *)
(* ===================================================================== *)

Section Matcher.
Context `{SM : StrMethods}.

Lemma get_data_rows w df :
  get_data w = Return df ->
  rows df ≡ₚ found w /\ StronglySorted date_le (map Date (rows df)).
Proof.
  unfold get_data, found.
  destruct (fetch_roster (bootstrap_static w)) as [[teams players]|e].
  2:{ intros [= <-]. split; [done|constructor]. }
  case_bool_decide.
  { intros [= <-]. split; [done|constructor]. }
  destruct (fetch_fixtures (fixtures_api w) teams) as [fixtures|e].
  2:{ intros [= <-]. split; [done|constructor]. }
  intros Hsort. apply sort_values_Date_rows in Hsort as [Hperm Hsorted].
  split; [by symmetry|done].
Qed.

Lemma found_origin w r :
  In r (found w) -> exists p p_dob m, origin w r p p_dob m.
Proof.
  unfold found, origin.
  destruct (fetch_roster (bootstrap_static w)) as [[teams players]|e] eqn:Hroster;
    [|done].
  case_bool_decide; [done|].
  destruct (fetch_fixtures (fixtures_api w) teams) as [fixtures|e] eqn:Hfix;
    [|done].
  unfold matches_found. intros (p & Hp & Hr)%in_flat_map.
  unfold player_matches in Hr.
  destruct (resolve_dob (get_wikidata_birthdays (sparql w)) p) as [p_dob|]
    eqn:Hdob; [|done].
  apply in_flat_map in Hr as (m & Hm & Hr).
  unfold team_fix in Hm. apply filter_In in Hm as [Hm Hteam].
  destruct (birthday_match (kickoff m) p_dob) eqn:Hbirthday; [|done].
  destruct Hr as [<-|[]].
  exists p, p_dob, m, teams, players, fixtures. done.
Qed.

Lemma get_data_origin w df r :
  get_data w = Return df -> In r (rows df) ->
  exists p p_dob m, origin w r p p_dob m.
Proof.
  intros Hdata Hr. apply found_origin.
  apply get_data_rows in Hdata as [Hperm _].
  eapply Permutation_in; done.
Qed.

(** A run whose fetches all succeed and that finds no match ends in the
    [KeyError] of [sort_values]. *)
Lemma get_data_no_match w teams players fixtures :
  fetch_roster (bootstrap_static w) = Return (teams, players) ->
  get_wikidata_birthdays (sparql w) <> ∅ ->
  fetch_fixtures (fixtures_api w) teams = Return fixtures ->
  matches_found (now w) (get_wikidata_birthdays (sparql w)) fixtures players
    = [] ->
  get_data w = Raise (KeyError "Date").
Proof.
  intros Hroster Hdob Hfix Hnone. unfold get_data.
  rewrite Hroster. rewrite bool_decide_eq_false_2 by done.
  rewrite Hfix. simpl. rewrite Hnone. done.
Qed.


(** The added columns of a row of [players]. *)
Lemma fetch_roster_player response teams players p :
  fetch_roster response = Return (teams, players) -> In p players ->
  full_name p = first_name (element p) +:+ " " +:+ second_name (element p)
  /\ match_key p = strip (lower (full_name p))
  /\ Team_Name p = teams !! team (element p).
Proof.
  unfold fetch_roster. intros Hroster Hp.
  destruct response as [[data_teams data_elements]|]; [|done].
  destruct data_elements as [|e0 es]; [done|].
  injection Hroster as <- <-.
  destruct Hp as [<-|Hp]; [done|].
  apply in_map_iff in Hp as (e & <- & _). done.
Qed.

End Matcher.

(* ===================================================================== *)
(** * The claims *)
(* ===================================================================== *)

Section Claims.
Context `{SM : StrMethods}.

(** C3: every record of the output has the month and the day of its
    fixture date equal to the month and the day of the date of birth
    resolved for its player. *)
Theorem C3_month_and_day_of_birth w df r :
  get_data w = Return df -> In r (rows df) ->
  exists p p_dob m,
    origin w r p p_dob m
    /\ Player r = full_name p
    /\ month (Date r) = month p_dob
    /\ day (Date r) = day p_dob.
Proof.
  intros Hdata Hr.
  destruct (get_data_origin w df r Hdata Hr) as (p & p_dob & m & Horigin).
  exists p, p_dob, m. split; [done|].
  destruct Horigin as (teams & players & fixtures & _ & _ & _ & _ & _ & _
                       & Hbirthday & ->).
  unfold birthday_match in Hbirthday. simpl. split; [done|]. lia.
Qed.

(** C4: when the roster block or the fixtures block raises, or the
    birthday index is empty, [get_data] returns the empty frame, no
    record is built, and the document written has the "No matches found."
    paragraph and no card. *)
Theorem C4_failed_fetch_gives_empty_report w :
  raises (fetch_roster (bootstrap_static w))
  \/ get_wikidata_birthdays (sparql w) = ∅
  \/ (forall teams, raises (fetch_fixtures (fixtures_api w) teams)) ->
  get_data w = Return DataFrame_empty
  /\ found w = []
  /\ main w = Written "index.html" html_empty_report
  /\ contains html_no_matches html_empty_report = true
  /\ contains card_marker html_empty_report = false.
Proof.
  intros Hfail.
  assert (Hdata : get_data w = Return DataFrame_empty /\ found w = []).
  { unfold get_data, found.
    destruct (fetch_roster (bootstrap_static w)) as [[teams players]|e];
      [|done].
    destruct Hfail as [[e [=]]|Hfail].
    case_bool_decide; [done|].
    destruct Hfail as [Hempty|Hfix]; [done|].
    destruct (Hfix teams) as [e ->]. done. }
  destruct Hdata as [Hdata Hfound].
  split; [done|]. split; [done|].
  split; [unfold main; by rewrite Hdata|].
  split; vm_compute; reflexivity.
Qed.

(** C5: a record of the output has the played status exactly when its
    fixture date is before the date of the run, and the upcoming status
    otherwise; a fixture on the date of the run is upcoming. *)
Theorem C5_status_by_date w df r :
  get_data w = Return df -> In r (rows df) ->
  (Status r = PLAYED <-> date_lt (Date r) (now w) = true)
  /\ (Status r = UPCOMING <-> date_lt (Date r) (now w) = false)
  /\ (Date r = now w -> Status r = UPCOMING).
Proof.
  intros Hdata Hr.
  destruct (get_data_origin w df r Hdata Hr)
    as (p & p_dob & m & teams & players & fixtures & _ & _ & _ & _ & _ & _
        & _ & ->).
  simpl.
  assert (Hne : PLAYED <> UPCOMING) by discriminate.
  split; [|split].
  - destruct (date_lt (kickoff m) (now w)); split; congruence.
  - destruct (date_lt (kickoff m) (now w)); split; congruence.
  - intros ->. by rewrite date_lt_irrefl.
Qed.


(** C7: the opponent text of a record is "vs " and the name of the away
    side when the player's team is the home side of its fixture, and
    "@ " and the name of the home side when it is not, in which case the
    player's team is the away side. *)
Theorem C7_opponent_descriptor w df r :
  get_data w = Return df -> In r (rows df) ->
  exists p p_dob m,
    origin w r p p_dob m
    /\ Team r = Team_Name p
    /\ (cell_eq (Team_Name p) (Home m) = true ->
        Opponent r = "vs " +:+ str_of_cell (Away m))
    /\ (cell_eq (Team_Name p) (Home m) = false ->
        cell_eq (Team_Name p) (Away m) = true
        /\ Opponent r = "@ " +:+ str_of_cell (Home m)).
Proof.
  intros Hdata Hr.
  destruct (get_data_origin w df r Hdata Hr) as (p & p_dob & m & Horigin).
  exists p, p_dob, m. split; [done|].
  destruct Horigin as (teams & players & fixtures & _ & _ & _ & _ & _
                       & Hside & _ & ->).
  simpl. split; [done|].
  assert (Hsym : forall a b, cell_eq a b = cell_eq b a).
  { intros [a|] [b|]; simpl; try done.
    apply bool_decide_ext. split; congruence. }
  rewrite !(Hsym _ (Team_Name p)) in Hside.
  split; intros Hhome; rewrite Hhome in *; simpl in *; done.
Qed.

(** C8: the age of a record is the year of its fixture date minus the
    year of the date of birth resolved for its player. *)
Theorem C8_turning_age w df r :
  get_data w = Return df -> In r (rows df) ->
  exists p p_dob m,
    origin w r p p_dob m
    /\ Turning_Age r = year (Date r) - year p_dob.
Proof.
  intros Hdata Hr.
  destruct (get_data_origin w df r Hdata Hr) as (p & p_dob & m & Horigin).
  exists p, p_dob, m. split; [done|].
  by destruct Horigin as (teams & players & fixtures & _ & _ & _ & _ & _
                          & _ & _ & ->).
Qed.

(** C9: a record of the output has the class "played" exactly when it
    has the played status, and the class "upcoming" exactly when it has
    the upcoming status. *)
Theorem C9_class_follows_status w df r :
  get_data w = Return df -> In r (rows df) ->
  (CssClass r = "played" <-> Status r = PLAYED)
  /\ (CssClass r = "upcoming" <-> Status r = UPCOMING).
Proof.
  intros Hdata Hr.
  destruct (get_data_origin w df r Hdata Hr)
    as (p & p_dob & m & teams & players & fixtures & _ & _ & _ & _ & _ & _
        & _ & ->).
  simpl. destruct (date_lt (kickoff m) (now w)); repeat split; done.
Qed.

(** C10: a player of the roster whose team id has no entry among the
    teams has no team name, is on neither side of any fixture, and adds
    nothing to [matches_found]. *)
Theorem C10_unknown_team_id response teams players p :
  fetch_roster response = Return (teams, players) -> In p players ->
  teams !! team (element p) = None ->
  Team_Name p = None
  /\ (forall m, cell_eq (Home m) (Team_Name p) = false
                /\ cell_eq (Away m) (Team_Name p) = false)
  /\ (forall fixtures, team_fix fixtures (Team_Name p) = [])
  /\ (forall today dob_map fixtures,
        player_matches today dob_map fixtures p = []).
Proof.
  intros Hroster Hp Hteam.
  destruct (fetch_roster_player _ _ _ _ Hroster Hp) as (_ & _ & Hname).
  rewrite Hteam in Hname.
  rewrite Hname.
  assert (Hside : forall m, cell_eq (Home m) None = false
                            /\ cell_eq (Away m) None = false).
  { intros m. by destruct (Home m), (Away m). }
  assert (Hfix : forall fixtures, team_fix fixtures None = []).
  { intros fixtures. unfold team_fix.
    induction fixtures as [|m fixtures IH]; [done|].
    simpl. destruct (Hside m) as [-> ->]. done. }
  repeat split; try apply Hside; [done|].
  intros today dob_map fixtures. unfold player_matches.
  rewrite Hname, Hfix. by destruct (resolve_dob dob_map p).
Qed.


End Claims.

(* ===================================================================== *)
(** * The claims on the example runs *)
(* ===================================================================== *)

Section Runs.
#[local] Existing Instance ascii_str.

(** C1: on a run whose three requests succeed and whose only fixture
    misses the birthday by a day, [get_data] does not return: the
    [KeyError] of [sort_values] ends the script before the document is
    built, so no file is written. *)
Theorem C1_run_without_match_raises :
  fetch_roster (bootstrap_static day_late)
    = Return (alpha_beta, [john_smith_player])
  /\ get_wikidata_birthdays (sparql day_late)
     = {[ "john smith" := mkdate 1998 5 10 ]}
  /\ fetch_fixtures (fixtures_api day_late) alpha_beta
     = Return [ {| kickoff := mkdate 2026 5 11;
                   Home := Some "Alpha FC"; Away := Some "Beta FC" |} ]
  /\ found day_late = []
  /\ get_data day_late = Raise (KeyError "Date")
  /\ main day_late = Uncaught (KeyError "Date").
Proof. repeat split; vm_compute; reflexivity. Qed.


Example boxing_day_generated :
  map Player (found boxing_day)
  = map (fun n => n +:+ " Doe") squad_names.
Proof. vm_compute. reflexivity. Qed.

Example boxing_day_returned :
  exists df,
    get_data boxing_day = Return df
    /\ map Player (rows df)
       = map (fun n => n +:+ " Doe")
             ["Ab"; "Pat"; "Oz"; "Ned"; "Max"; "Lu"; "Kit"; "Jo"; "Ian";
              "Hal"; "Gil"; "Fu"; "Ed"; "Di"; "Cy"; "Bo"; "Quin"; "Rex"].
Proof. eexists. split; vm_compute; reflexivity. Qed.

Example scenario1_run :
  get_data scenario1 = Return scenario1_frame
  /\ exists html,
       main scenario1 = Written "index.html" html
       /\ contains "Found 1 matches" html = true
       /\ contains card_marker html = true
       /\ contains html_no_matches html = false.
Proof.
  split; [vm_compute; reflexivity|].
  eexists. split; [vm_compute; reflexivity|].
  repeat split; vm_compute; reflexivity.
Qed.

Example scenario2_run :
  exists df,
    get_data scenario2 = Return df
    /\ map Opponent (rows df) = ["@ Beta FC"].
Proof. eexists. split; vm_compute; reflexivity. Qed.

Example scenario3_run :
  get_data scenario3 = Return scenario1_frame.
Proof. vm_compute. reflexivity. Qed.

Example scenario5_run :
  exists df,
    get_data scenario5 = Return df
    /\ map (fun r => (Date r, Status r, Turning_Age r, Opponent r)) (rows df)
       = [ (mkdate 2025 5 10, PLAYED, 27, "vs Beta FC");
           (mkdate 2026 5 10, UPCOMING, 28, "@ Beta FC") ].
Proof. eexists. split; vm_compute; reflexivity. Qed.


Lemma C3_month_and_day_of_birth_witness :
  get_data scenario1 = Return scenario1_frame
  /\ In scenario1_record (rows scenario1_frame)
  /\ exists p p_dob m,
       origin scenario1 scenario1_record p p_dob m
       /\ Player scenario1_record = full_name p
       /\ month (Date scenario1_record) = month p_dob
       /\ day (Date scenario1_record) = day p_dob.
Proof.
  split; [vm_compute; reflexivity|]. split; [simpl; auto|].
  apply (C3_month_and_day_of_birth scenario1 scenario1_frame);
    [vm_compute; reflexivity|simpl; auto].
Defined.

Lemma C4_failed_fetch_gives_empty_report_witness :
  (forall teams, raises (fetch_fixtures (fixtures_api scenario4) teams))
  /\ get_data scenario4 = Return DataFrame_empty
  /\ found scenario4 = []
  /\ main scenario4 = Written "index.html" html_empty_report
  /\ contains html_no_matches html_empty_report = true
  /\ contains card_marker html_empty_report = false.
Proof.
  assert (Hfix : forall teams,
            raises (fetch_fixtures (fixtures_api scenario4) teams)).
  { intros teams. exists RequestException. reflexivity. }
  split; [exact Hfix|].
  apply (C4_failed_fetch_gives_empty_report scenario4).
  right. right. exact Hfix.
Defined.

Lemma C5_status_by_date_witness :
  get_data scenario1 = Return scenario1_frame
  /\ In scenario1_record (rows scenario1_frame)
  /\ (Status scenario1_record = PLAYED
      <-> date_lt (Date scenario1_record) (now scenario1) = true)
  /\ (Status scenario1_record = UPCOMING
      <-> date_lt (Date scenario1_record) (now scenario1) = false)
  /\ (Date scenario1_record = now scenario1
      -> Status scenario1_record = UPCOMING).
Proof.
  split; [vm_compute; reflexivity|]. split; [simpl; auto|].
  apply (C5_status_by_date scenario1 scenario1_frame);
    [vm_compute; reflexivity|simpl; auto].
Defined.


Lemma C7_opponent_descriptor_witness :
  get_data scenario1 = Return scenario1_frame
  /\ In scenario1_record (rows scenario1_frame)
  /\ exists p p_dob m,
       origin scenario1 scenario1_record p p_dob m
       /\ Team scenario1_record = Team_Name p
       /\ (cell_eq (Team_Name p) (Home m) = true ->
           Opponent scenario1_record = "vs " +:+ str_of_cell (Away m))
       /\ (cell_eq (Team_Name p) (Home m) = false ->
           cell_eq (Team_Name p) (Away m) = true
           /\ Opponent scenario1_record = "@ " +:+ str_of_cell (Home m)).
Proof.
  split; [vm_compute; reflexivity|]. split; [simpl; auto|].
  apply (C7_opponent_descriptor scenario1 scenario1_frame);
    [vm_compute; reflexivity|simpl; auto].
Defined.

Lemma C8_turning_age_witness :
  get_data scenario1 = Return scenario1_frame
  /\ In scenario1_record (rows scenario1_frame)
  /\ exists p p_dob m,
       origin scenario1 scenario1_record p p_dob m
       /\ Turning_Age scenario1_record
          = year (Date scenario1_record) - year p_dob.
Proof.
  split; [vm_compute; reflexivity|]. split; [simpl; auto|].
  apply (C8_turning_age scenario1 scenario1_frame);
    [vm_compute; reflexivity|simpl; auto].
Defined.

Lemma C9_class_follows_status_witness :
  get_data scenario1 = Return scenario1_frame
  /\ In scenario1_record (rows scenario1_frame)
  /\ (CssClass scenario1_record = "played"
      <-> Status scenario1_record = PLAYED)
  /\ (CssClass scenario1_record = "upcoming"
      <-> Status scenario1_record = UPCOMING).
Proof.
  split; [vm_compute; reflexivity|]. split; [simpl; auto|].
  apply (C9_class_follows_status scenario1 scenario1_frame);
    [vm_compute; reflexivity|simpl; auto].
Defined.

Lemma C10_unknown_team_id_witness :
  fetch_roster (Some (two_teams, [stray_element]))
    = Return (alpha_beta, [stray_player])
  /\ In stray_player [stray_player]
  /\ alpha_beta !! team (element stray_player) = None
  /\ Team_Name stray_player = None
  /\ (forall m, cell_eq (Home m) (Team_Name stray_player) = false
                /\ cell_eq (Away m) (Team_Name stray_player) = false)
  /\ (forall fixtures, team_fix fixtures (Team_Name stray_player) = [])
  /\ (forall today dob_map fixtures,
        player_matches today dob_map fixtures stray_player = []).
Proof.
  split; [vm_compute; reflexivity|]. split; [simpl; auto|].
  split; [vm_compute; reflexivity|].
  apply (C10_unknown_team_id (Some (two_teams, [stray_element])) alpha_beta
           [stray_player]);
    [vm_compute; reflexivity|simpl; auto|vm_compute; reflexivity].
Defined.

End Runs.

(* ===================================================================== *)
(** * Dictionaries built by a loop of assignments *)
(* ===================================================================== *)



(* ===================================================================== *)
(** * The birthday index *)
(* ===================================================================== *)

Section BirthdayIndex.
Context `{SM : StrMethods}.






End BirthdayIndex.

(* ===================================================================== *)
(** * The ways in which a run ends *)
(* ===================================================================== *)

Lemma sort_values_Date_nil :
  sort_values_Date (DataFrame_of []) = Raise (KeyError "Date").
Proof. reflexivity. Qed.

Lemma sort_values_Date_cons r records :
  sort_values_Date (DataFrame_of (r :: records))
  = Return {| columns := record_columns;
              rows := take_rows (nargsort (map Date (r :: records)))
                                (r :: records) |}.
Proof.
  unfold sort_values_Date. rewrite bool_decide_eq_true_2; [done|].
  apply list_elem_of_here.
Qed.

Section Endings.
Context `{SM : StrMethods}.

(** Either the run returns early with the empty frame, or it reaches the
    loop and sorts the frame of what the loop found. *)
Lemma run_cases w :
  (returns_early w /\ get_data w = Return DataFrame_empty /\ found w = [])
  \/ (~ returns_early w
      /\ get_data w = sort_values_Date (DataFrame_of (found w))
      /\ exists teams players fixtures,
           fetch_roster (bootstrap_static w) = Return (teams, players)
           /\ get_wikidata_birthdays (sparql w) <> ∅
           /\ fetch_fixtures (fixtures_api w) teams = Return fixtures
           /\ found w = matches_found (now w)
                          (get_wikidata_birthdays (sparql w)) fixtures players).
Proof.
  unfold returns_early, get_data, found.
  destruct (fetch_roster (bootstrap_static w)) as [[teams players]|e] eqn:Hr.
  2:{ left. split; [left; by exists e|done]. }
  case_bool_decide as Hindex.
  { left. split; [right; by left|done]. }
  destruct (fetch_fixtures (fixtures_api w) teams) as [fixtures|e] eqn:Hf.
  2:{ left. split; [|done]. right. right. intros teams'.
      unfold fetch_fixtures in *.
      destruct (fixtures_api w) as [[|f l]|]; [by eexists|done|by eexists]. }
  right. split.
  - intros [[e [=]]|[Hempty|Hfix]]; [done|].
    destruct (Hfix teams) as [e He]. congruence.
  - split; [done|]. by exists teams, players, fixtures.
Qed.

(** X4: the only exception that leaves [get_data] is the [KeyError] of the
    sort, and it does exactly when the run reaches the loop and the loop
    finds nothing. *)
Theorem get_data_raises_iff w e :
  get_data w = Raise e
  <-> e = KeyError "Date" /\ ~ returns_early w /\ found w = [].
Proof.
  destruct (run_cases w) as [(Hearly & Hdata & Hnone)|(Hlate & Hdata & _)];
    rewrite Hdata.
  - split; [done|]. by intros (_ & Hlate & _).
  - destruct (found w) as [|r records].
    + rewrite sort_values_Date_nil. split; [by intros [= <-]|].
      by intros (-> & _).
    + rewrite sort_values_Date_cons. split; [done|]. by intros (_ & _ & ?).
Qed.

(** The frame that [get_data] returns: empty after an early return, with
    columns and rows after the loop. *)
Lemma returned_frame_shape w df :
  get_data w = Return df ->
  (empty df = true <-> returns_early w)
  /\ (returns_early w -> df = DataFrame_empty)
  /\ (~ returns_early w ->
      columns df = record_columns /\ length (rows df) = length (found w)
      /\ found w <> []).
Proof.
  intros Hret.
  destruct (run_cases w) as [(Hearly & Hdata & Hnone)|(Hlate & Hdata & _)];
    rewrite Hdata in Hret.
  - injection Hret as <-. repeat split; try done.
  - destruct (found w) as [|r records] eqn:Hfound; [done|].
    rewrite sort_values_Date_cons in Hret. injection Hret as <-.
    pose proof (nargsort_perm (map Date (r :: records))) as Hperm.
    rewrite length_map in Hperm.
    apply take_rows_perm, Permutation_length in Hperm.
    simpl in *. unfold empty. simpl.
    destruct (take_rows _ _) eqn:Hrows; [simpl in Hperm; lia|].
    split; [split; [done|by intros ?]|].
    split; [by intros ?|]. intros _. by rewrite <- Hperm.
Qed.

(** X5: the frame that [get_data] returns is empty, so that the document
    gets the placeholder instead of cards, exactly when the run returned
    early; a frame returned after the loop has the seven columns and a
    row for every record found. *)
Theorem placeholder_iff_early_return w df :
  get_data w = Return df ->
  (empty df = true <-> returns_early w)
  /\ (returns_early w -> df = DataFrame_empty)
  /\ (~ returns_early w ->
      columns df = record_columns /\ length (rows df) = length (found w)
      /\ found w <> []).
Proof. apply returned_frame_shape. Qed.

(** X6: every pair of a roster player with a resolved date of birth and a
    fixture of the player's team on that month and day is in the frame
    that [get_data] returns, and [get_data] does return then. *)
Theorem matcher_complete w r p p_dob m :
  origin w r p p_dob m ->
  exists df, get_data w = Return df /\ In r (rows df).
Proof.
  intros (teams & players & fixtures & Hr & Hf & Hp & Hdob & Hm & Hside
          & Hday & ->).
  assert (Hfound : In (match_record (now w) p p_dob m) (found w)).
  { unfold found. rewrite Hr.
    rewrite bool_decide_eq_false_2.
    2:{ intros Hempty. unfold resolve_dob in Hdob. rewrite Hempty in Hdob.
        by rewrite !lookup_empty in Hdob. }
    rewrite Hf. unfold matches_found. apply in_flat_map. exists p.
    split; [done|]. unfold player_matches. rewrite Hdob.
    apply in_flat_map. exists m. split.
    - unfold team_fix. by apply filter_In.
    - rewrite Hday. by left. }
  destruct (run_cases w) as [(_ & _ & Hnone)|(_ & Hdata & _)].
  { by rewrite Hnone in Hfound. }
  rewrite Hdata. destruct (found w) as [|r0 records] eqn:Hrows; [done|].
  rewrite sort_values_Date_cons. eexists. split; [done|]. simpl.
  pose proof (nargsort_perm (map Date (r0 :: records))) as Hperm.
  rewrite length_map in Hperm. apply take_rows_perm in Hperm.
  eapply Permutation_in; done.
Qed.

(** X7: a run that found records writes a document whose summary shows
    their number, followed by one card per record in the order of the
    sorted frame and no placeholder. *)
Theorem report_of_found_records w df :
  get_data w = Return df -> found w <> [] ->
  len df = length (found w)
  /\ rows df ≡ₚ found w
  /\ main w = Written "index.html"
                (html_head (length (found w)) +:+ html_cards (rows df)
                 +:+ "</body></html>").
Proof.
  intros Hret Hfound.
  destruct (returned_frame_shape w df Hret) as (Hempty & _ & Hlate).
  destruct (run_cases w) as [(_ & _ & Hnone)|(Hnot & _)]; [done|].
  destruct (Hlate Hnot) as (_ & Hlen & _).
  split; [done|]. split; [by apply get_data_rows|].
  unfold main. rewrite Hret. unfold html_content, len. rewrite Hlen.
  destruct (empty df) eqn:He; [|done].
  exfalso. by apply Hnot, Hempty.
Qed.

End Endings.

(* ===================================================================== *)
(** * The two answers of the league service *)
(* ===================================================================== *)

Lemma teams_lookup (data_teams : list team_json) (i : Z) :
  foldl (fun (d : gmap Z string) t => <[id t := name t]> d) ∅ data_teams !! i
  = last (names_of_id i data_teams).
Proof.
  unfold names_of_id.
  induction data_teams as [|t data_teams IH] using rev_ind; [done|].
  rewrite foldl_app, omap_app. simpl.
  destruct (decide (id t = i)) as [->|Hne]; simpl.
  - by rewrite last_snoc, lookup_insert_eq.
  - by rewrite app_nil_r, lookup_insert_ne.
Qed.

Lemma names_of_id_listed (data_teams : list team_json) i n :
  last (names_of_id i data_teams) = Some n ->
  exists t, In t data_teams /\ id t = i /\ name t = n.
Proof.
  intros Hlast%last_Some_elem_of. unfold names_of_id in Hlast.
  apply list_elem_of_omap in Hlast as (t & Ht & Hname).
  exists t. rewrite <- list_elem_of_In.
  destruct (decide (id t = i)); [|done]. by injection Hname as <-.
Qed.

Lemma fetch_fixtures_rows f fix_resp teams :
  fetch_fixtures (Some (f :: fix_resp)) teams
  = Return (omap (fun f =>
                    match kickoff_time f with
                    | None => None
                    | Some d => Some {| kickoff := d;
                                        Home := teams !! team_h f;
                                        Away := teams !! team_a f |}
                    end)
                 (f :: fix_resp)).
Proof. reflexivity. Qed.

Section LeagueAnswers.
Context `{SM : StrMethods}.

Lemma fetch_roster_teams data_teams data_elements teams players :
  fetch_roster (Some (data_teams, data_elements)) = Return (teams, players) ->
  teams = foldl (fun (d : gmap Z string) t => <[id t := name t]> d) ∅
                data_teams
  /\ data_elements <> []
  /\ forall p, In p players -> In (element p) data_elements.
Proof.
  unfold fetch_roster. destruct data_elements as [|e0 es]; [done|].
  intros [= <- <-]. split; [done|]. split; [done|].
  intros p [<-|Hp]; [by left|right].
  by apply in_map_iff in Hp as (e & <- & He).
Qed.

Lemma Team_Name_lookup data_teams data_elements teams players p :
  fetch_roster (Some (data_teams, data_elements)) = Return (teams, players) ->
  In p players ->
  Team_Name p = last (names_of_id (team (element p)) data_teams).
Proof.
  intros Hroster Hp.
  destruct (fetch_roster_player _ _ _ _ Hroster Hp) as (_ & _ & ->).
  apply fetch_roster_teams in Hroster as (-> & _).
  apply teams_lookup.
Qed.

(** X8: the team name of a player is the name of the last team listed with
    the player's team id, and NaN when no team is listed with it. *)
Theorem team_name_of_last_listing data_teams data_elements teams players p :
  fetch_roster (Some (data_teams, data_elements)) = Return (teams, players) ->
  In p players ->
  Team_Name p = last (names_of_id (team (element p)) data_teams).
Proof. apply Team_Name_lookup. Qed.

Lemma returns_early_report w :
  returns_early w ->
  get_data w = Return DataFrame_empty
  /\ main w = Written "index.html" html_empty_report.
Proof.
  intros Hearly.
  destruct (run_cases w) as [(_ & Hdata & _)|(Hlate & _)]; [|done].
  split; [done|]. unfold main. by rewrite Hdata.
Qed.

(** X9: an answer with an empty list of elements, or an empty list of
    fixtures, counts as a failed fetch: the [KeyError] of the missing
    column is caught and the run writes the empty report. *)
Theorem empty_answer_gives_empty_report w :
  (exists data_teams, bootstrap_static w = Some (data_teams, []))
  \/ fixtures_api w = Some [] ->
  get_data w = Return DataFrame_empty
  /\ main w = Written "index.html" html_empty_report.
Proof.
  intros Hempty. apply returns_early_report.
  destruct Hempty as [[data_teams Hroster]|Hfix].
  - left. rewrite Hroster. by eexists.
  - right. right. intros teams. rewrite Hfix. by eexists.
Qed.

(** X10: a fixture without kickoff time is dropped: as long as another row
    is left in the answer, the run gives what it gives without that row. *)
Theorem fixture_without_kickoff_is_dropped w before f after :
  fixtures_api w = Some (before ++ f :: after)%list ->
  kickoff_time f = None ->
  (before ++ after)%list <> [] ->
  get_data w = get_data (with_fixtures w (Some (before ++ after)%list))
  /\ main w = main (with_fixtures w (Some (before ++ after)%list)).
Proof.
  intros Hfix Hnull Hrest.
  assert (Hsame : forall teams,
    fetch_fixtures (fixtures_api w) teams
    = fetch_fixtures (Some (before ++ after)%list) teams).
  { intros teams. rewrite Hfix.
    destruct (before ++ after)%list as [|f1 l1] eqn:H1; [done|].
    destruct (before ++ f :: after)%list as [|f2 l2] eqn:H2.
    { by destruct before. }
    rewrite !fetch_fixtures_rows, <- H1, <- H2, !omap_app. csimpl.
    by rewrite Hnull. }
  assert (Hdata : get_data w
                  = get_data (with_fixtures w (Some (before ++ after)%list))).
  { unfold get_data. simpl.
    destruct (fetch_roster (bootstrap_static w)) as [[teams players]|];
      [|done].
    by rewrite Hsame. }
  split; [done|]. unfold main. by rewrite Hdata.
Qed.

(** X11: when the roster and the index are there and the fixtures answer is
    a non-empty list without any kickoff time, the loop has no fixture to
    look at and the run ends in the [KeyError] of the sort. *)
Theorem fixtures_without_kickoff_end_in_KeyError w teams players fix_resp :
  fetch_roster (bootstrap_static w) = Return (teams, players) ->
  get_wikidata_birthdays (sparql w) <> ∅ ->
  fixtures_api w = Some fix_resp -> fix_resp <> [] ->
  Forall (fun f => kickoff_time f = None) fix_resp ->
  get_data w = Raise (KeyError "Date")
  /\ main w = Uncaught (KeyError "Date").
Proof.
  intros Hroster Hindex Hfix Hne Hnull.
  assert (Hdata : get_data w = Raise (KeyError "Date")).
  { apply get_data_no_match with teams players [].
    - done.
    - done.
    - rewrite Hfix. destruct fix_resp as [|f l]; [done|].
      rewrite fetch_fixtures_rows. f_equal.
      generalize (f :: l) Hnull. clear.
      induction 1 as [|f' l' Hf' _ IH]; [done|].
      csimpl. by rewrite Hf'.
    - unfold matches_found. clear Hroster.
      induction players as [|p players IH]; [done|].
      simpl. rewrite IH. unfold player_matches.
      by destruct (resolve_dob _ p). }
  split; [done|]. unfold main. by rewrite Hdata.
Qed.

End LeagueAnswers.

(* ===================================================================== *)
(** * From a record back to the answers *)
(* ===================================================================== *)

Lemma fetch_fixtures_row fix_resp teams fixtures m :
  fetch_fixtures (Some fix_resp) teams = Return fixtures -> In m fixtures ->
  exists f, In f fix_resp /\ kickoff_time f = Some (kickoff m)
            /\ Home m = teams !! team_h f /\ Away m = teams !! team_a f.
Proof.
  destruct fix_resp as [|f0 l]; [done|].
  rewrite fetch_fixtures_rows. intros Heq Hm.
  assert (Hrows : forall x y : list fixture, Return x = Return y -> x = y)
    by (intros ? ? [=]; done).
  apply Hrows in Heq. rewrite <- Heq in Hm. clear Heq Hrows.
  rewrite <- list_elem_of_In in Hm.
  apply list_elem_of_omap in Hm as (f & Hf & Hrow).
  exists f. rewrite <- list_elem_of_In. split; [done|].
  destruct (kickoff_time f); [|done]. by injection Hrow as <-.
Qed.

Lemma cell_eq_true a b : cell_eq a b = true -> exists n, a = Some n /\ b = Some n.
Proof.
  destruct a as [x|], b as [y|]; simpl; try done.
  intros ->%bool_decide_eq_true. by exists y.
Qed.

Section Provenance.
Context `{SM : StrMethods}.

Lemma record_provenance w df r data_teams data_elements fix_resp :
  bootstrap_static w = Some (data_teams, data_elements) ->
  fixtures_api w = Some fix_resp ->
  get_data w = Return df -> In r (rows df) ->
  exists e f t t',
    In e data_elements /\ In f fix_resp
    /\ In t data_teams /\ In t' data_teams
    /\ Player r = first_name e +:+ " " +:+ second_name e
    /\ kickoff_time f = Some (Date r)
    /\ id t = team e /\ Team r = Some (name t)
    /\ name t' = name t /\ (id t' = team_h f \/ id t' = team_a f).
Proof.
  intros Hboot Hfix Hdata Hr.
  destruct (get_data_origin w df r Hdata Hr)
    as (p & p_dob & m & teams & players & fixtures & Hroster & Hfixtures
        & Hp & _ & Hm & Hside & _ & ->).
  rewrite Hboot in Hroster. rewrite Hfix in Hfixtures.
  destruct (fetch_roster_player _ _ _ _ Hroster Hp) as (Hfull & _ & _).
  pose proof (Team_Name_lookup _ _ _ _ _ Hroster Hp) as Hteam.
  destruct (fetch_roster_teams _ _ _ _ Hroster) as (Hteams & _ & Helem).
  destruct (fetch_fixtures_row _ _ _ _ Hfixtures Hm)
    as (f & Hf & Hkick & Hhome & Haway).
  assert (Hnamed : exists n i, Team_Name p = Some n /\ teams !! i = Some n
                               /\ (i = team_h f \/ i = team_a f)).
  { apply orb_true_iff in Hside as [Hs|Hs];
      apply cell_eq_true in Hs as (n & Hside & Hname); exists n.
    - exists (team_h f). rewrite <- Hhome. auto.
    - exists (team_a f). rewrite <- Haway. auto. }
  destruct Hnamed as (n & i & Hname & Hi & Hif).
  rewrite Hname in Hteam. symmetry in Hteam.
  apply names_of_id_listed in Hteam as (t & Ht & Hid & Hn).
  rewrite Hteams, teams_lookup in Hi.
  apply names_of_id_listed in Hi as (t' & Ht' & Hid' & Hn').
  exists (element p), f, t, t'. simpl.
  repeat split; try done; try (by apply Helem); congruence.
Qed.

(** X12: every record of the output is made of the answers: its player is
    the first and second name of an element, its date the kickoff date of
    a fixture row, and its team the name of a team listed with the
    element's team id, never NaN. *)
Theorem record_is_made_of_the_answers w df r data_teams data_elements
    fix_resp :
  bootstrap_static w = Some (data_teams, data_elements) ->
  fixtures_api w = Some fix_resp ->
  get_data w = Return df -> In r (rows df) ->
  exists e f t,
    In e data_elements /\ In f fix_resp /\ In t data_teams
    /\ Player r = first_name e +:+ " " +:+ second_name e
    /\ kickoff_time f = Some (Date r)
    /\ id t = team e /\ Team r = Some (name t).
Proof.
  intros Hboot Hfix Hdata Hr.
  destruct (record_provenance _ _ _ _ _ _ Hboot Hfix Hdata Hr)
    as (e & f & t & _ & He & Hf & Ht & _ & Hplayer & Hkick & Hid & Hteam & _).
  by exists e, f, t.
Qed.

(** X13: players and fixtures are joined on the team name.  When no two
    listed teams with different ids share a name, the element and the
    fixture row behind a record agree on the team id: the element's team
    is the home or the away id of the row. *)
Theorem records_join_on_team_id w df r data_teams data_elements fix_resp :
  (forall t1 t2, In t1 data_teams -> In t2 data_teams ->
                 name t1 = name t2 -> id t1 = id t2) ->
  bootstrap_static w = Some (data_teams, data_elements) ->
  fixtures_api w = Some fix_resp ->
  get_data w = Return df -> In r (rows df) ->
  exists e f,
    In e data_elements /\ In f fix_resp
    /\ Player r = first_name e +:+ " " +:+ second_name e
    /\ kickoff_time f = Some (Date r)
    /\ (team e = team_h f \/ team e = team_a f).
Proof.
  intros Hdistinct Hboot Hfix Hdata Hr.
  destruct (record_provenance _ _ _ _ _ _ Hboot Hfix Hdata Hr)
    as (e & f & t & t' & He & Hf & Ht & Ht' & Hplayer & Hkick & Hid & _
        & Hname & Hside).
  exists e, f. repeat split; try done.
  rewrite <- Hid, <- (Hdistinct t' t Ht' Ht Hname). done.
Qed.

End Provenance.

(* ===================================================================== *)
(** * What the document shows of a record *)
(* ===================================================================== *)

Lemma prefix_app_r (s1 s2 rest : string) :
  String.prefix s1 s2 = true -> String.prefix s1 (s2 +:+ rest) = true.
Proof.
  revert s2. induction s1 as [|c s1 IH]; intros s2.
  { intros _. by destruct (s2 +:+ rest). }
  destruct s2 as [|c2 s2]; [done|]. simpl.
  destruct (ascii_dec c c2); [apply IH|done].
Qed.

Lemma prefix_here (sub rest : string) : String.prefix sub (sub +:+ rest) = true.
Proof.
  induction sub as [|c sub IH]; [by destruct rest|].
  simpl. by destruct (ascii_dec c c).
Qed.

Lemma contains_cons (sub : string) c s :
  contains sub (String c s) = String.prefix sub (String c s) || contains sub s.
Proof. reflexivity. Qed.

Lemma contains_here (sub rest : string) : contains sub (sub +:+ rest) = true.
Proof.
  assert (Hp := prefix_here sub rest).
  unfold contains. destruct (sub +:+ rest); rewrite Hp; done.
Qed.

Lemma contains_app_r (sub before s : string) :
  contains sub s = true -> contains sub (before +:+ s) = true.
Proof.
  intros Hs. induction before as [|c before IH]; [done|].
  change (String c before +:+ s) with (String c (before +:+ s)).
  rewrite contains_cons, IH. apply orb_true_r.
Qed.

Lemma contains_app_l (sub s rest : string) :
  contains sub s = true -> contains sub (s +:+ rest) = true.
Proof.
  induction s as [|c s IH].
  - unfold contains at 1. rewrite orb_false_r. intros Hp.
    destruct sub; [|done]. by destruct rest.
  - rewrite contains_cons. intros [Hp|Hs]%orb_true_iff.
    + apply (prefix_app_r _ _ rest) in Hp.
      change (String c s +:+ rest) with (String c (s +:+ rest)) in *.
      rewrite contains_cons, Hp. done.
    + change (String c s +:+ rest) with (String c (s +:+ rest)).
      rewrite contains_cons, IH by done. apply orb_true_r.
Qed.

Lemma html_cards_contains (sub : string) (rs : list MatchRecord) row :
  In row rs -> contains sub (html_card row) = true ->
  contains sub (html_cards rs) = true.
Proof.
  unfold html_cards. generalize "". intros acc Hrow Hsub. revert acc.
  assert (Hkeep : forall rs acc,
            contains sub acc = true ->
            contains sub (foldl (fun html row => html +:+ html_card row)
                                acc rs) = true).
  { clear. induction rs as [|r rs IH]; intros acc Hacc; [done|].
    simpl. apply IH. by apply contains_app_l. }
  induction rs as [|r rs IH]; intros acc; [done|].
  simpl. destruct Hrow as [->|Hrow]; [|by apply IH].
  apply Hkeep. by apply contains_app_r.
Qed.

Ltac find_in_card :=
  unfold html_card, quoted;
  repeat first [ apply contains_here | apply contains_app_r ].

Lemma html_card_shows_player row : contains (Player row) (html_card row) = true.
Proof. find_in_card. Qed.

Lemma html_card_shows_opponent row :
  contains (Opponent row) (html_card row) = true.
Proof. find_in_card. Qed.

Lemma html_card_shows_team row :
  contains (str_of_cell (Team row)) (html_card row) = true.
Proof. find_in_card. Qed.

Section Shown.
Context `{SM : StrMethods}.

(** X14: the document of a run shows the player, the team and the opponent
    text of every record of the frame exactly as they are: the names of
    the two services reach the markup unescaped. *)
Theorem names_are_written_as_they_are w df r :
  get_data w = Return df -> In r (rows df) ->
  exists html,
    main w = Written "index.html" html
    /\ contains (Player r) html = true
    /\ contains (str_of_cell (Team r)) html = true
    /\ contains (Opponent r) html = true.
Proof.
  intros Hdata Hr. unfold main. rewrite Hdata. eexists. split; [done|].
  assert (Hshown : empty df = false).
  { destruct (returned_frame_shape w df Hdata) as (_ & Hearly & Hlate).
    destruct (run_cases w) as [(He & _)|(Hl & _)].
    - rewrite (Hearly He) in Hr. done.
    - destruct (Hlate Hl) as (Hcols & _). unfold empty.
      rewrite Hcols. by destruct (rows df). }
  unfold html_content. rewrite Hshown. cbn [negb].
  repeat split; apply contains_app_r, contains_app_l;
    apply (html_cards_contains _ _ r Hr).
  - apply html_card_shows_player.
  - apply html_card_shows_team.
  - apply html_card_shows_opponent.
Qed.

End Shown.

(* ===================================================================== *)
(** * What the clock changes *)
(* ===================================================================== *)

Lemma take_rows_fmap (f : MatchRecord -> MatchRecord) ix rs :
  take_rows ix (map f rs) = map f (take_rows ix rs).
Proof.
  unfold take_rows. induction ix as [|i ix IH]; [done|].
  csimpl. change (map f rs) with (f <$> rs) in *.
  rewrite list_lookup_fmap. destruct (rs !! i); csimpl; by rewrite IH.
Qed.

Lemma map_flat_map {A B C} (f : B -> C) (g : A -> list B) (l : list A) :
  map f (flat_map g l) = flat_map (fun x => map f (g x)) l.
Proof.
  induction l as [|x l IH]; [done|]. simpl. by rewrite map_app, IH.
Qed.

Lemma sort_values_Date_restamp today records :
  sort_values_Date (DataFrame_of (map (restamp today) records))
  = match sort_values_Date (DataFrame_of records) with
    | Return df =>
        Return {| columns := columns df;
                  rows := map (restamp today) (rows df) |}
    | Raise e => Raise e
    end.
Proof.
  destruct records as [|r records]; [done|].
  change (map (restamp today) (r :: records))
    with (restamp today r :: map (restamp today) records).
  rewrite !sort_values_Date_cons. cbn [columns rows]. f_equal. f_equal.
  change (restamp today r :: map (restamp today) records)
    with (map (restamp today) (r :: records)).
  assert (Hdates : map Date (map (restamp today) (r :: records))
                   = map Date (r :: records)).
  { rewrite map_map. apply map_ext. done. }
  rewrite Hdates. apply take_rows_fmap.
Qed.

Section Clock.
Context `{SM : StrMethods}.

Lemma matches_found_restamp today today' dob_map fixtures players :
  matches_found today' dob_map fixtures players
  = map (restamp today') (matches_found today dob_map fixtures players).
Proof.
  unfold matches_found. rewrite map_flat_map.
  apply flat_map_ext. intros p. unfold player_matches.
  destruct (resolve_dob dob_map p) as [p_dob|]; [|done].
  rewrite map_flat_map. apply flat_map_ext. intros m.
  by destruct (birthday_match (kickoff m) p_dob).
Qed.

(** X15: the date of the run decides the status and the class of a record
    and nothing else: on another day the run finds the same records in
    the same order, stamped for that day, and ends in the same way. *)
Theorem clock_only_stamps w today :
  found (with_now w today) = map (restamp today) (found w)
  /\ (forall df, get_data w = Return df ->
        get_data (with_now w today)
        = Return {| columns := columns df;
                    rows := map (restamp today) (rows df) |})
  /\ (forall e, get_data w = Raise e -> get_data (with_now w today) = Raise e).
Proof.
  assert (Hfound : found (with_now w today) = map (restamp today) (found w)).
  { unfold found. simpl.
    destruct (fetch_roster (bootstrap_static w)) as [[teams players]|];
      [|done].
    case_bool_decide; [done|].
    destruct (fetch_fixtures (fixtures_api w) teams); [|done].
    apply matches_found_restamp. }
  split; [done|].
  assert (Hdata : get_data (with_now w today)
                  = match get_data w with
                    | Return df =>
                        Return {| columns := columns df;
                                  rows := map (restamp today) (rows df) |}
                    | Raise e => Raise e
                    end).
  { unfold get_data. simpl.
    destruct (fetch_roster (bootstrap_static w)) as [[teams players]|];
      [|done].
    case_bool_decide; [done|].
    destruct (fetch_fixtures (fixtures_api w) teams) as [fixtures|]; [|done].
    rewrite (matches_found_restamp (now w) today).
    apply sort_values_Date_restamp. }
  rewrite Hdata. split.
  - by intros df ->.
  - by intros e ->.
Qed.

End Clock.

(* ===================================================================== *)
(** * The further properties on the example runs *)
(* ===================================================================== *)

Section FurtherRuns.
#[local] Existing Instance ascii_str.

Example twice_bound_index :
  get_wikidata_birthdays (Some twice_bound)
  = {[ "john smith" := mkdate 1998 5 10 ]}.
Proof. vm_compute. reflexivity. Qed.


Lemma placeholder_iff_early_return_witness :
  get_data scenario1 = Return scenario1_frame
  /\ (empty scenario1_frame = true <-> returns_early scenario1)
  /\ (returns_early scenario1 -> scenario1_frame = DataFrame_empty)
  /\ (~ returns_early scenario1 ->
      columns scenario1_frame = record_columns
      /\ length (rows scenario1_frame) = length (found scenario1)
      /\ found scenario1 <> []).
Proof.
  split; [vm_compute; reflexivity|].
  apply (placeholder_iff_early_return scenario1 scenario1_frame).
  vm_compute; reflexivity.
Defined.

Lemma matcher_complete_witness :
  origin scenario1 scenario1_record john_smith_player (mkdate 1998 5 10)
         scenario1_fixture
  /\ exists df,
       get_data scenario1 = Return df /\ In scenario1_record (rows df).
Proof.
  assert (Horigin : origin scenario1 scenario1_record john_smith_player
                           (mkdate 1998 5 10) scenario1_fixture).
  { exists alpha_beta, [john_smith_player], [scenario1_fixture].
    repeat split; try (vm_compute; reflexivity); simpl; auto. }
  split; [exact Horigin|].
  apply (matcher_complete scenario1 scenario1_record john_smith_player
           (mkdate 1998 5 10) scenario1_fixture Horigin).
Defined.

Lemma report_of_found_records_witness :
  get_data scenario1 = Return scenario1_frame
  /\ found scenario1 <> []
  /\ len scenario1_frame = length (found scenario1)
  /\ rows scenario1_frame ≡ₚ found scenario1
  /\ main scenario1
     = Written "index.html"
         (html_head (length (found scenario1))
          +:+ html_cards (rows scenario1_frame) +:+ "</body></html>").
Proof.
  assert (Hfound : found scenario1 <> []).
  { vm_compute. discriminate. }
  split; [vm_compute; reflexivity|]. split; [exact Hfound|].
  apply (report_of_found_records scenario1 scenario1_frame);
    [vm_compute; reflexivity|exact Hfound].
Defined.

Lemma team_name_of_last_listing_witness :
  fetch_roster (Some (two_teams, [john_smith]))
    = Return (alpha_beta, [john_smith_player])
  /\ In john_smith_player [john_smith_player]
  /\ Team_Name john_smith_player
     = last (names_of_id (team (element john_smith_player)) two_teams).
Proof.
  split; [vm_compute; reflexivity|]. split; [simpl; auto|].
  apply (team_name_of_last_listing two_teams [john_smith] alpha_beta
           [john_smith_player]);
    [vm_compute; reflexivity|simpl; auto].
Defined.

Lemma empty_answer_gives_empty_report_witness :
  fixtures_api scenario1_no_fixtures = Some []
  /\ get_data scenario1_no_fixtures = Return DataFrame_empty
  /\ main scenario1_no_fixtures = Written "index.html" html_empty_report.
Proof.
  split; [reflexivity|].
  apply (empty_answer_gives_empty_report scenario1_no_fixtures).
  right. reflexivity.
Defined.

Lemma fixture_without_kickoff_is_dropped_witness :
  fixtures_api scenario1_postponed
    = Some [ {| team_h := 2; team_a := 1; kickoff_time := None |};
             {| team_h := 1; team_a := 2;
                kickoff_time := Some (mkdate 2026 5 10) |} ]
  /\ get_data scenario1_postponed
     = get_data (with_fixtures scenario1_postponed (fixtures_api scenario1))
  /\ main scenario1_postponed
     = main (with_fixtures scenario1_postponed (fixtures_api scenario1)).
Proof.
  split; [reflexivity|].
  apply (fixture_without_kickoff_is_dropped scenario1_postponed []
           {| team_h := 2; team_a := 1; kickoff_time := None |}
           [ {| team_h := 1; team_a := 2;
                kickoff_time := Some (mkdate 2026 5 10) |} ]);
    [reflexivity|reflexivity|simpl; discriminate].
Defined.

Lemma fixtures_without_kickoff_end_in_KeyError_witness :
  get_data scenario1_unscheduled = Raise (KeyError "Date")
  /\ main scenario1_unscheduled = Uncaught (KeyError "Date").
Proof.
  apply (fixtures_without_kickoff_end_in_KeyError scenario1_unscheduled
           alpha_beta [john_smith_player]
           [ {| team_h := 1; team_a := 2; kickoff_time := None |} ]).
  - vm_compute; reflexivity.
  - vm_compute. discriminate.
  - reflexivity.
  - discriminate.
  - repeat constructor.
Defined.

Lemma record_is_made_of_the_answers_witness :
  exists e f t,
    In e [john_smith]
    /\ In f [ {| team_h := 1; team_a := 2;
                 kickoff_time := Some (mkdate 2026 5 10) |} ]
    /\ In t two_teams
    /\ Player scenario1_record = first_name e +:+ " " +:+ second_name e
    /\ kickoff_time f = Some (Date scenario1_record)
    /\ id t = team e /\ Team scenario1_record = Some (name t).
Proof.
  apply (record_is_made_of_the_answers scenario1 scenario1_frame
           scenario1_record two_teams [john_smith]);
    [reflexivity|reflexivity|vm_compute; reflexivity|simpl; auto].
Defined.

Lemma records_join_on_team_id_witness :
  exists e f,
    In e [john_smith]
    /\ In f [ {| team_h := 1; team_a := 2;
                 kickoff_time := Some (mkdate 2026 5 10) |} ]
    /\ Player scenario1_record = first_name e +:+ " " +:+ second_name e
    /\ kickoff_time f = Some (Date scenario1_record)
    /\ (team e = team_h f \/ team e = team_a f).
Proof.
  apply (records_join_on_team_id scenario1 scenario1_frame
           scenario1_record two_teams [john_smith]);
    [|reflexivity|reflexivity|vm_compute; reflexivity|simpl; auto].
  intros t1 t2 [<-|[<-|[]]] [<-|[<-|[]]]; simpl; intros Hname;
    first [reflexivity | discriminate Hname].
Defined.

Lemma names_are_written_as_they_are_witness :
  exists html,
    main scenario1 = Written "index.html" html
    /\ contains (Player scenario1_record) html = true
    /\ contains (str_of_cell (Team scenario1_record)) html = true
    /\ contains (Opponent scenario1_record) html = true.
Proof.
  apply (names_are_written_as_they_are scenario1 scenario1_frame
           scenario1_record);
    [vm_compute; reflexivity|simpl; auto].
Defined.

End FurtherRuns.
